(** * managetkeventdata: marshalling calls to Tk's main thread

    A shallow embedding of [managetkeventdata/__init__.py] and the
    properties of its call-marshalling engine.

    The Python module keeps its state in the closure of [init_module]: the
    deque [datastream], the counter [count], the re-entrant lock
    [generation_lock], the thread-local store [local] and the flag
    [main_cell_set].  Here that state is a record which every function
    takes and returns.  The objects handled by user code are references;
    the [ReturnCell] objects live in a store indexed by their identity, so
    that the cell written by the main thread is the one read by the
    calling thread.  Threads are interleaved by a transition function
    [exec] whose actions are the atomic sections of the source. *)

From Stdlib Require Import ZArith DecimalString DecimalZ Sorted.
From stdpp Require Import gmap strings list fin_maps sorting.

Open Scope Z_scope.

(** ** Python values *)

(** Exceptions raised by the interpreter inside the module's own code. *)
Inductive BuiltinExc :=
| AssertionError | IndexError | ValueError | AttributeError | TypeError.

(** A Python value is a reference.  Immediate values are kept for the
    examples; every other object is known by its identity only. *)
Inductive PyObj :=
| PyNone
| PyInt (z : Z)
| PyStr (s : string)
| PyRef (id : positive)
| PyExc (k : BuiltinExc).

#[global] Instance BuiltinExc_eq_dec : EqDecision BuiltinExc.
Proof. solve_decision. Defined.
#[global] Instance PyObj_eq_dec : EqDecision PyObj.
Proof. solve_decision. Defined.

(** How a call ends.  [Raises e]: [e] is an instance of [Exception], which
    [except Exception] catches.  [RaisesBase e]: [e] derives from
    [BaseException] only ([KeyboardInterrupt], [SystemExit]...), which
    [except Exception] lets through. *)
Inductive Result (A : Type) :=
| Returns (a : A)
| Raises (e : PyObj)
| RaisesBase (e : PyObj).
Arguments Returns {A} a.
Arguments Raises {A} e.
Arguments RaisesBase {A} e.

Abbreviation Outcome := (Result PyObj).

(** The attributes of the user's objects: [(id, name)] gives the value of
    attribute [name] of the object [PyRef id]. *)
Abbreviation World := (gmap (positive * string) PyObj).

(** [getattr(obj, name)]; [None] stands for [AttributeError]. *)
Definition getattr (w : World) (obj : PyObj) (name : string) : option PyObj :=
  match obj with
  | PyRef id => w !! (id, name)
  | _ => None
  end.

(** [setattr(obj, name, value)] on a user object. *)
Definition setattr (obj : PyObj) (name : string) (value : PyObj) (w : World) : World :=
  match obj with
  | PyRef id => <[(id, name) := value]> w
  | _ => w
  end.

(** [callable(obj)]: the type of [obj] defines [__call__].  The attributes
    of the classes are folded into the table of their instances, so this
    is the presence of [__call__] in the table of [obj]; the immediate
    values and the interpreter's exceptions have none. *)
Definition callable (w : World) (obj : PyObj) : bool :=
  bool_decide (is_Some (getattr w obj "__call__")).

(** [str(index)] and [int(args[0])] on decimal numerals. *)
Definition str (z : Z) : string := NilZero.string_of_int (Z.to_int z).
Definition int (s : string) : option Z := Z.of_int <$> NilZero.int_of_string s.

(** ** Identities *)

Abbreviation thread := positive.
Abbreviation loc := positive.
Abbreviation Widget := string.

(** [threading.main_thread()], the thread that runs Tk's main loop. *)
Definition main_thread : thread := 1%positive.

(** ** Event data *)

(** A [functools.partial] object: a callable with the positional and
    keyword arguments bound to it. *)
Record Partial := mkPartial {
  p_func : PyObj;
  p_args : list PyObj;
  p_keywords : list (string * PyObj) }.

(** The subclasses of [Handler], with their fields. *)
Inductive Handler :=
| ProcHandler
| ProcExcHandler (_exc_handler : PyObj)
| FuncHandler.

(** What [event_generate] enqueues: the client data of a user event, or one
    of the two [EventData] named tuples. *)
Inductive Data :=
| UserData (o : PyObj)
| ProcEventData (handler : Handler) (func : Partial)
| FuncEventData (handler : Handler) (cell : loc) (func : Partial).

(** [SmallEvent = namedtuple('SmallEvent', 'data widget')]. *)
Record SmallEvent := mkSmallEvent { data : Data; widget : Widget }.

(** ** The pending queue and [_substitute] *)

(** The loop of [_substitute]: [dequeue()] until an entry has [n >= index].
    [popleft] on an empty deque raises [IndexError].  The deque left by the
    loop is returned in every case. *)
Fixpoint _substitute_loop (index : Z) (q : list (Z * Data))
  : list (Z * Data) * Result (Z * Data) :=
  match q with
  | [] => ([], Raises (PyExc IndexError))
  | (n, d) :: q' =>
      if n >=? index then (q', Returns (n, d)) else _substitute_loop index q'
  end.

(** The loop followed by [assert n == index]. *)
Definition dequeue_expected (index : Z) (q : list (Z * Data)) : list (Z * Data) * Result Data :=
  match _substitute_loop index q with
  | (q', Returns (n, d)) =>
      if n =? index then (q', Returns d) else (q', Raises (PyExc AssertionError))
  | (q', Raises e) => (q', Raises e)
  | (q', RaisesBase e) => (q', RaisesBase e)
  end.

(** [_substitute] in the closure of [bind(widget, ...)]; [args] is the
    tuple of its positional arguments. *)
Definition _substitute (widget : Widget) (args : list string) (q : list (Z * Data))
  : list (Z * Data) * Result SmallEvent :=
  match args with
  | [] => (q, Raises (PyExc IndexError))
  | a :: _ =>
      match int a with
      | None => (q, Raises (PyExc ValueError))
      | Some index =>
          match dequeue_expected index q with
          | (q', Returns d) => (q', Returns (mkSmallEvent d widget))
          | (q', Raises e) => (q', Raises e)
          | (q', RaisesBase e) => (q', RaisesBase e)
          end
      end
  end.

(** ** Return cells *)

(** [ReturnCell]: [bell] is the state of the [threading.Event]. *)
Record ReturnCell := mkReturnCell {
  _value : PyObj;
  err_flag : bool;
  bell : bool }.

(** [ReturnCell.__init__]. *)
Definition new_ReturnCell : ReturnCell :=
  {| _value := PyNone; err_flag := false; bell := false |}.

(** [ReturnCell.set_return]: swaps [value] in and returns the old one. *)
Definition set_return (value : PyObj) (c : ReturnCell) : PyObj * ReturnCell :=
  (_value c, {| _value := value; err_flag := err_flag c; bell := bell c |}).

(** The single writes a thread performs on a cell, one per statement. *)
Inductive CellOp :=
| SetErrFlag (b : bool)       (* cell.err_flag = b *)
| SetReturn (value : PyObj)   (* cell.set_return(value) *)
| BellSet                     (* cell.bell.set() *)
| BellClear.                  (* cell.bell.clear() *)

Definition cell_op (c : ReturnCell) (op : CellOp) : ReturnCell :=
  match op with
  | SetErrFlag b => {| _value := _value c; err_flag := b; bell := bell c |}
  | SetReturn value => snd (set_return value c)
  | BellSet => {| _value := _value c; err_flag := err_flag c; bell := true |}
  | BellClear => {| _value := _value c; err_flag := err_flag c; bell := false |}
  end.

Definition cell_ops (ops : list CellOp) (c : ReturnCell) : ReturnCell :=
  foldl cell_op c ops.

(** ** Tk's side *)

(** An event placed on Tcl's event queue by
    [widget.event_generate(sequence, data=..., when='tail')]. *)
Record TkEvent := mkTkEvent {
  ev_widget : Widget;
  ev_sequence : string;
  ev_data : string }.

(** The function given to [widget._register]: [handle_call], or a function
    of the user. *)
Inductive BoundFunc :=
| HandleCall
| UserFunc (f : PyObj).

(** A command registered by [bind]: [func] and the [_substitute] closure,
    which holds the [widget] given to [bind]. *)
Record Command := mkCommand {
  cmd_widget : Widget;
  cmd_func : BoundFunc }.

(** ** Observations *)

(** The history records, per return cell, the three moments of a call
    through an ordinary proxy.  It is not part of the Python state. *)
Inductive Obs :=
| Called (t : thread) (cell : loc) (func : Partial)
    (* thread [t] scheduled [func] with its cell and waits *)
| Executed (cell : loc) (func : Partial) (w : World) (out : Outcome)
    (* [FuncHandler] ran [func()] in world [w] and published [out] *)
| Returned (t : thread) (cell : loc) (out : Outcome).
    (* thread [t] woke up and left the proxy call with [out] *)

(** ** The state of the module *)

Record State := mkState {
  datastream : list (Z * Data);        (* the deque *)
  count : Z;                           (* next value of [itertools.count()] *)
  local : gmap thread (option loc);    (* [local.return_cell] of each thread *)
  main_cell_set : bool;
  cells : gmap loc ReturnCell;         (* the [ReturnCell] objects *)
  tk_events : list TkEvent;            (* Tcl's event queue *)
  tk_bindings : gmap (Widget * string) (list Command);
  waiting : gmap thread (loc * Partial); (* threads inside [cell.bell.wait()] *)
  world : World;                       (* the user's objects *)
  history : list Obs }.

Definition set_datastream (q : list (Z * Data)) (s : State) : State :=
  mkState q (count s) (local s) (main_cell_set s) (cells s) (tk_events s)
    (tk_bindings s) (waiting s) (world s) (history s).
Definition set_count (n : Z) (s : State) : State :=
  mkState (datastream s) n (local s) (main_cell_set s) (cells s) (tk_events s)
    (tk_bindings s) (waiting s) (world s) (history s).
Definition set_local (m : gmap thread (option loc)) (s : State) : State :=
  mkState (datastream s) (count s) m (main_cell_set s) (cells s) (tk_events s)
    (tk_bindings s) (waiting s) (world s) (history s).
Definition set_main_cell_set (b : bool) (s : State) : State :=
  mkState (datastream s) (count s) (local s) b (cells s) (tk_events s)
    (tk_bindings s) (waiting s) (world s) (history s).
Definition set_cells (m : gmap loc ReturnCell) (s : State) : State :=
  mkState (datastream s) (count s) (local s) (main_cell_set s) m (tk_events s)
    (tk_bindings s) (waiting s) (world s) (history s).
Definition set_tk_events (l : list TkEvent) (s : State) : State :=
  mkState (datastream s) (count s) (local s) (main_cell_set s) (cells s) l
    (tk_bindings s) (waiting s) (world s) (history s).
Definition set_tk_bindings (m : gmap (Widget * string) (list Command)) (s : State) : State :=
  mkState (datastream s) (count s) (local s) (main_cell_set s) (cells s) (tk_events s)
    m (waiting s) (world s) (history s).
Definition set_waiting (m : gmap thread (loc * Partial)) (s : State) : State :=
  mkState (datastream s) (count s) (local s) (main_cell_set s) (cells s) (tk_events s)
    (tk_bindings s) m (world s) (history s).
Definition set_world (w : World) (s : State) : State :=
  mkState (datastream s) (count s) (local s) (main_cell_set s) (cells s) (tk_events s)
    (tk_bindings s) (waiting s) w (history s).
Definition observe (o : Obs) (s : State) : State :=
  mkState (datastream s) (count s) (local s) (main_cell_set s) (cells s) (tk_events s)
    (tk_bindings s) (waiting s) (world s) (history s ++ [o]).

(** The writes [ops] applied, in order, to the cell at [l]. *)
Definition write_cell (l : loc) (ops : list CellOp) (s : State) : State :=
  set_cells (alter (cell_ops ops) l (cells s)) s.

Definition virtual_event : string := "<<managetkeventdata-call>>".

(** [event_generate]: the body of [with generation_lock] is one atomic
    section.  The counter yields [index], the pair goes to the tail of the
    deque, and Tk queues the event with [str(index)] as its data. *)
Definition event_generate (widget : Widget) (sequence : string) (d : Data)
    (s : State) : State :=
  let index := count s in
  let s1 := set_count (index + 1) s in
  let s2 := set_datastream (datastream s1 ++ [(index, d)]) s1 in
  set_tk_events (tk_events s2 ++ [mkTkEvent widget sequence (str index)]) s2.

(** [bind]: registers [func] with its [_substitute] and binds the script to
    [sequence] on [widget]; with [add] the script is appended to the one
    already bound, without it the script replaces it. *)
Definition bind (widget : Widget) (sequence : string) (func : BoundFunc)
    (add : bool) (s : State) : State :=
  let cmd := mkCommand widget func in
  let old := default [] (tk_bindings s !! (widget, sequence)) in
  set_tk_bindings
    (<[(widget, sequence) := if add then old ++ [cmd] else [cmd]]> (tk_bindings s)) s.

(** [return_cell()] called by thread [t]. *)
Definition return_cell (t : thread) (s : State) : State * option loc :=
  match local s !! t with
  | Some c => (s, c)
  | None =>
      if main_cell_set s || negb (bool_decide (t = main_thread)) then
        let l := fresh (dom (cells s)) in
        (set_local (<[t := Some l]> (local s))
           (set_cells (<[l := new_ReturnCell]> (cells s)) s), Some l)
      else
        (set_local (<[t := None]> (local s)) (set_main_cell_set true s), None)
  end.

(** The state left by [init_module()] when thread [t] imports the module. *)
Definition init_module (t : thread) (w : World) : State :=
  let s := mkState [] 0 ∅ false ∅ [] ∅ ∅ w [] in
  if bool_decide (t = main_thread) then fst (return_cell t s) else s.

(** ** Generators and proxies *)

(** The subclasses of [Generator], with the [_handler] field. *)
Inductive Generator :=
| ProcGenerator (_handler : Handler)
| FuncGenerator (_handler : Handler).

(** [Proxy(_getattr)]: the closure [_getattr] of [make_proxy] holds
    [generator], [widget] and [obj]. *)
Record Proxy := mkProxy {
  px_generator : Generator;
  px_widget : Widget;
  px_obj : PyObj }.

(** [partial(method, func)]: the closure [method] holds [generator] and
    [widget]; [func] is the attribute already read from the target. *)
Record Forwarder := mkForwarder {
  fw_generator : Generator;
  fw_widget : Widget;
  fw_func : PyObj }.

Definition make_proxy (generator : Generator) (widget : Widget) (obj : PyObj) : Proxy :=
  mkProxy generator widget obj.

(** [_getattr(name)] is [partial(method, getattr(obj, name))]: the
    attribute is read from [obj] when [_getattr] runs. *)
Definition _getattr (p : Proxy) (name : string) (w : World) : Result Forwarder :=
  match getattr w (px_obj p) name with
  | Some func => Returns (mkForwarder (px_generator p) (px_widget p) func)
  | None => Raises (PyExc AttributeError)
  end.

(** [Proxy.__getattr__], the hook Python calls when the normal lookup of
    [name] on the proxy fails. *)
Definition Proxy_getattr (p : Proxy) (name : string) (w : World) : Result Forwarder :=
  _getattr p name w.

(** The names for which the normal lookup on a [Proxy] object fails.  The
    lookup finds [_getattr] in the instance, and in the classes [Proxy]
    and [object] special names such as [__init__], [__class__] or
    [__dict__]; which special names depends on the interpreter.  Every
    other name is missed: the names that are not [_getattr] and do not
    begin with two underscores are among them. *)
Definition forwarded (name : string) : bool :=
  negb (String.eqb name "_getattr") && negb (String.prefix "__" name).

(** The expression [proxy.name], for the names known to reach
    [__getattr__]; [None] for the others, which the proxy may answer
    itself. *)
Definition proxy_attr (p : Proxy) (name : string) (w : World)
    : option (Result Forwarder) :=
  if forwarded name then Some (Proxy_getattr p name w) else None.

(** [ProxyBuilder]: [__init__] binds [handle_call] to the virtual event. *)
Record ProxyBuilder := mkProxyBuilder { _widget : Widget }.

Definition ProxyBuilder_init (widget : Widget) (s : State) : State * ProxyBuilder :=
  (bind widget virtual_event HandleCall false s, mkProxyBuilder widget).

Definition proxy (pb : ProxyBuilder) (obj : PyObj) : Proxy :=
  make_proxy (FuncGenerator FuncHandler) (_widget pb) obj.

(** What the caller of a generator gets: the call is over with an outcome,
    or the thread sleeps in [cell.bell.wait()]. *)
Inductive CallStatus :=
| Done (out : Outcome)
| Blocked (cell : loc).

(** The writes of [FuncHandler.__call__] after [func()], statement by
    statement (lines 222 to 224).  A [BaseException] leaves the method
    before them. *)
Definition FuncHandler_ops (out : Outcome) : list CellOp :=
  match out with
  | Returns result => [SetErrFlag false; SetReturn result; BellSet]
  | Raises exc => [SetErrFlag true; SetReturn exc; BellSet]
  | RaisesBase _ => []
  end.

Section Semantics.

(** The user's code: [call f args kwargs w] is the call of the object
    [f] with these arguments in world [w]; [call_event f ev w] the call
    of a bound event handler with the event [ev]. *)
Variable call : PyObj → list PyObj → list (string * PyObj) → World → World * Outcome.
Variable call_event : PyObj → SmallEvent → World → World * Outcome.

(** [bool(obj)] on a user's object runs its [__bool__] or its [__len__]:
    [truth_of id w] is that call for the object [PyRef id] in world [w].
    An object with neither method is true. *)
Variable truth_of : positive → World → World * Result bool.

(** [bool(o)], the test of [if exc_handler]. *)
Definition truth (o : PyObj) (w : World) : World * Result bool :=
  match o with
  | PyNone => (w, Returns false)
  | PyInt z => (w, Returns (negb (z =? 0)))
  | PyStr s => (w, Returns (negb (String.eqb s "")))
  | PyExc _ => (w, Returns true)
  | PyRef id => truth_of id w
  end.

(** [ProxyBuilder.mute_proxy(obj, exc_handler)]: the handler is chosen by
    the truth value of [exc_handler]. *)
Definition mute_proxy (pb : ProxyBuilder) (obj : PyObj) (exc_handler : PyObj)
    (s : State) : State * Result Proxy :=
  match truth exc_handler (world s) with
  | (w, Returns b) =>
      let handler := if b then ProcExcHandler exc_handler else ProcHandler in
      (set_world w s, Returns (make_proxy (ProcGenerator handler) (_widget pb) obj))
  | (w, Raises e) => (set_world w s, Raises e)
  | (w, RaisesBase e) => (set_world w s, RaisesBase e)
  end.

(** Calling a [partial] with no further argument. *)
Definition run (func : Partial) (w : World) : World * Outcome :=
  call (p_func func) (p_args func) (p_keywords func) w.

(** [func()] on the thread that owns the state [s]. *)
Definition run_in (func : Partial) (s : State) : State * Outcome :=
  let '(w, out) := run func (world s) in (set_world w s, out).

(** *** Handlers, run by the main thread *)

(** [ProcHandler.__call__]: [event.data.func()], result dropped. *)
Definition ProcHandler_call (event : SmallEvent) (s : State) : State * Outcome :=
  match data event with
  | ProcEventData _ func | FuncEventData _ _ func =>
      match run_in func s with
      | (s1, Returns _) => (s1, Returns PyNone)
      | (s1, Raises e) => (s1, Raises e)
      | (s1, RaisesBase e) => (s1, RaisesBase e)
      end
  | UserData _ => (s, Raises (PyExc AttributeError))
  end.

(** [ProcExcHandler.__call__]. *)
Definition ProcExcHandler_call (exc_handler : PyObj) (event : SmallEvent)
    (s : State) : State * Outcome :=
  match data event with
  | ProcEventData _ func | FuncEventData _ _ func =>
      match run_in func s with
      | (s1, Returns _) => (s1, Returns PyNone)
      | (s1, Raises exc) =>
          match call exc_handler [exc] [] (world s1) with
          | (w, Returns _) => (set_world w s1, Returns PyNone)
          | (w, Raises e) => (set_world w s1, Raises e)
          | (w, RaisesBase e) => (set_world w s1, RaisesBase e)
          end
      | (s1, RaisesBase e) => (s1, RaisesBase e)
      end
  | UserData _ => (s, Raises (PyExc AttributeError))
  end.

(** [FuncHandler.__call__]: unpacks the three fields, runs [func()],
    then writes the cell. *)
Definition FuncHandler_call (event : SmallEvent) (s : State) : State * Outcome :=
  match data event with
  | FuncEventData _ cell func =>
      let w := world s in
      match run_in func s with
      | (s1, RaisesBase e) => (s1, RaisesBase e)
      | (s1, out) =>
          (observe (Executed cell func w out)
             (write_cell cell (FuncHandler_ops out) s1), Returns PyNone)
      end
  | ProcEventData _ _ => (s, Raises (PyExc ValueError))
  | UserData _ => (s, Raises (PyExc TypeError))
  end.

Definition Handler_call (h : Handler) (event : SmallEvent) (s : State)
    : State * Outcome :=
  match h with
  | ProcHandler => ProcHandler_call event s
  | ProcExcHandler exc_handler => ProcExcHandler_call exc_handler event s
  | FuncHandler => FuncHandler_call event s
  end.

(** [handle_call]: [event.data.handler(event)].  Client data that is not
    an [EventData] has no [handler] attribute. *)
Definition handle_call (event : SmallEvent) (s : State) : State * Outcome :=
  match data event with
  | ProcEventData h _ | FuncEventData h _ _ =>
      match Handler_call h event s with
      | (s1, Returns _) => (s1, Returns PyNone)
      | r => r
      end
  | UserData _ => (s, Raises (PyExc AttributeError))
  end.

(** *** Generators, run by the calling thread *)

(** [ProcGenerator.__call__]. *)
Definition ProcGenerator_call (handler : Handler) (widget : Widget)
    (func : Partial) (s : State) : State * CallStatus :=
  (event_generate widget virtual_event (ProcEventData handler func) s,
   Done (Returns PyNone)).

(** [FuncGenerator.__call__] up to and including the entry into
    [cell.bell.wait()]. *)
Definition FuncGenerator_call (handler : Handler) (t : thread) (widget : Widget)
    (func : Partial) (s : State) : State * CallStatus :=
  match return_cell t s with
  | (s1, None) =>
      let '(s2, result) := run_in func s1 in (s2, Done result)
  | (s1, Some cell) =>
      let s2 := write_cell cell [BellClear] s1 in
      let s3 := event_generate widget virtual_event
                  (FuncEventData handler cell func) s2 in
      (observe (Called t cell func)
         (set_waiting (<[t := (cell, func)]> (waiting s3)) s3), Blocked cell)
  end.

(** The rest of [FuncGenerator.__call__]: [wait()] returns once the bell
    is set; then [result = cell.set_return(None)] and the test of
    [err_flag].  [None]: the thread stays asleep. *)
Definition FuncGenerator_resume (t : thread) (cell : loc) (s : State)
    : option (State * Outcome) :=
  match cells s !! cell with
  | Some c =>
      if bell c then
        let result := fst (set_return PyNone c) in
        let out := if err_flag c then Raises result else Returns result in
        Some (observe (Returned t cell out)
                (set_waiting (delete t (waiting s))
                   (write_cell cell [SetReturn PyNone] s)), out)
      else None
  | None => None
  end.

Definition Generator_call (g : Generator) (t : thread) (widget : Widget)
    (func : Partial) (s : State) : State * CallStatus :=
  match g with
  | ProcGenerator handler => ProcGenerator_call handler widget func s
  | FuncGenerator handler => FuncGenerator_call handler t widget func s
  end.

(** The call of the forwarder [fw] by thread [t], which runs [method] in
    the closure of [make_proxy] with [func] bound to the attribute.
    [method] names its first parameter [func]: a keyword argument of that
    name is a second value for it and the call raises [TypeError] before
    the body runs.  In the body, [partial] raises [TypeError] unless
    [func] is callable; then the generator is called. *)
Definition method (fw : Forwarder) (args : list PyObj)
    (kwargs : list (string * PyObj)) (t : thread) (s : State) : State * CallStatus :=
  if bool_decide ("func" ∈ kwargs.*1) then (s, Done (Raises (PyExc TypeError)))
  else if callable (world s) (fw_func fw) then
    Generator_call (fw_generator fw) t (fw_widget fw)
      (mkPartial (fw_func fw) args kwargs) s
  else (s, Done (Raises (PyExc TypeError))).

(** The expression [proxy.name(args)] evaluated by thread [t]: the
    attribute access on the proxy, then the call of what it returned. *)
Definition proxy_call (p : Proxy) (name : string) (args : list PyObj)
    (kwargs : list (string * PyObj)) (t : thread) (s : State)
    : option (State * CallStatus) :=
  match proxy_attr p name (world s) with
  | Some (Returns fw) => Some (method fw args kwargs t s)
  | Some (Raises e) => Some (s, Done (Raises e))
  | Some (RaisesBase e) => Some (s, Done (RaisesBase e))
  | None => None
  end.

(** *** Tk's main loop *)

Definition call_bound (f : BoundFunc) (event : SmallEvent) (s : State)
    : State * Outcome :=
  match f with
  | HandleCall => handle_call event s
  | UserFunc g =>
      let '(w, out) := call_event g event (world s) in (set_world w s, out)
  end.

(** tkinter's [CallWrapper.__call__] for a command registered by [bind]:
    [args = subst(%d)] and then [func(args)], with [_substitute] as
    [subst]. *)
Definition CallWrapper_call (c : Command) (arg : string) (s : State)
    : State * Outcome :=
  match _substitute (cmd_widget c) [arg] (datastream s) with
  | (q, Returns event) => call_bound (cmd_func c) event (set_datastream q s)
  | (q, Raises e) => (set_datastream q s, Raises e)
  | (q, RaisesBase e) => (set_datastream q s, RaisesBase e)
  end.

(** The script bound to an event: each command in turn; a command that
    returns ["break"] ends the script, an exception is reported by Tk and
    the script goes on. *)
Fixpoint run_script (cs : list Command) (arg : string) (s : State) : State :=
  match cs with
  | [] => s
  | c :: cs' =>
      match CallWrapper_call c arg s with
      | (s1, Returns (PyStr "break")) => s1
      | (s1, _) => run_script cs' arg s1
      end
  end.

(** One turn of the main loop: Tk takes the event at the head of its
    queue and runs the scripts bound to its sequence on [tags], the
    binding tags Tk finds for the event's widget. *)
Definition dispatch (tags : list Widget) (s : State) : option State :=
  match tk_events s with
  | [] => None
  | e :: es =>
      let script :=
        concat (map (λ tag, default [] (tk_bindings s !! (tag, ev_sequence e))) tags) in
      Some (run_script script (ev_data e) (set_tk_events es s))
  end.

(** *** Interleaving *)

(** The atomic sections of the threads.  A thread inside
    [cell.bell.wait()] can only wake up. *)
Inductive Action :=
| AEventGenerate (t : thread) (widget : Widget) (sequence : string) (o : PyObj)
| ABind (t : thread) (widget : Widget) (sequence : string) (func : PyObj) (add : bool)
| AProxyBuilder (t : thread) (widget : Widget)
| ACall (t : thread) (fw : Forwarder) (args : list PyObj) (kwargs : list (string * PyObj))
| AWake (t : thread)
| ADispatch (tags : list Widget)
| AUser (t : thread) (w : World).

Definition awake (t : thread) (s : State) : bool :=
  bool_decide (waiting s !! t = None).

Definition exec (a : Action) (s : State) : option State :=
  match a with
  | AEventGenerate t widget sequence o =>
      if awake t s then Some (event_generate widget sequence (UserData o) s) else None
  | ABind t widget sequence func add =>
      if awake t s then Some (bind widget sequence (UserFunc func) add s) else None
  | AProxyBuilder t widget =>
      if awake t s then Some (fst (ProxyBuilder_init widget s)) else None
  | ACall t fw args kwargs =>
      if awake t s then Some (fst (method fw args kwargs t s)) else None
  | AWake t =>
      match waiting s !! t with
      | Some (cell, _) => fst <$> FuncGenerator_resume t cell s
      | None => None
      end
  | ADispatch tags => dispatch tags s
  | AUser t w =>
      if awake t s then Some (set_world w s) else None
  end.

Fixpoint execs (acts : list Action) (s : State) : option State :=
  match acts with
  | [] => Some s
  | a :: acts' =>
      match exec a s with
      | Some s' => execs acts' s'
      | None => None
      end
  end.

(** The states the module can be in: those reached from its
    initialisation by some thread. *)
Definition reachable (s : State) : Prop :=
  ∃ t w acts, execs acts (init_module t w) = Some s.

End Semantics.

(** ** The example of [__main__.py] *)

Module Demo.

(** [Foo()] with its methods [square] and [boom], [Spam()] with [bad];
    the exception objects raised by [boom] and [bad]. *)
Definition foo : PyObj := PyRef 10.
Definition Foo_square : PyObj := PyRef 11.
Definition Foo_boom : PyObj := PyRef 12.
Definition zero_division : PyObj := PyRef 13.
Definition spam : PyObj := PyRef 20.
Definition Spam_bad : PyObj := PyRef 21.
Definition type_error : PyObj := PyRef 22.
Definition Foo_cube : PyObj := PyRef 14.

(** Each method is a callable object. *)
Definition slot : PyObj := PyStr "method-wrapper".

Definition objects : World :=
  setattr foo "square" Foo_square
    (setattr foo "boom" Foo_boom
       (setattr spam "bad" Spam_bad
          (setattr Foo_square "__call__" slot
             (setattr Foo_boom "__call__" slot
                (setattr Spam_bad "__call__" slot
                   (setattr Foo_cube "__call__" slot ∅)))))).

(** None of these objects defines [__bool__] or [__len__]. *)
Definition truth_of (id : positive) (w : World) : World * Result bool :=
  (w, Returns true).

Definition call (f : PyObj) (args : list PyObj) (kwargs : list (string * PyObj))
    (w : World) : World * Outcome :=
  match f, args with
  | PyRef 11, [PyInt x] => (w, Returns (PyInt (x * x)))
  | PyRef 14, [PyInt x] => (w, Returns (PyInt (x * x * x)))
  | PyRef 12, [] => (w, Raises zero_division)
  | PyRef 21, [] => (w, Raises type_error)
  | _, _ => (w, Raises (PyExc TypeError))
  end.

Definition call_event (f : PyObj) (event : SmallEvent) (w : World)
    : World * Outcome := (w, Returns PyNone).

Definition root : Widget := ".".
Definition button : Widget := ".button".
Definition worker : thread := 2%positive.

(** The module imported by the main thread, then [ProxyBuilder(root)]. *)
Definition started : State :=
  fst (ProxyBuilder_init root (init_module main_thread objects)).
Definition pb : ProxyBuilder :=
  snd (ProxyBuilder_init root (init_module main_thread objects)).

(** What [foo_proxy.square] and [foo_proxy.boom] evaluate to, with
    [foo_proxy = pb.proxy(Foo())]. *)
Definition square_fw : Forwarder :=
  mkForwarder (FuncGenerator FuncHandler) root Foo_square.
Definition boom_fw : Forwarder :=
  mkForwarder (FuncGenerator FuncHandler) root Foo_boom.

(** The worker thread has called [foo_proxy.square(13)], or
    [foo_proxy.boom()], and sleeps. *)
Definition calling_square : State :=
  fst (method call square_fw [PyInt 13] [] worker started).
Definition calling_boom : State :=
  fst (method call boom_fw [] [] worker started).

(** Tk has run the script bound to the virtual event for the first. *)
Definition handled_square : State :=
  run_script call call_event [mkCommand root HandleCall] "0"
    (set_tk_events [] calling_square).

End Demo.

(** ** Invariant of the reachable states *)

Definition cell_of (d : Data) : option loc :=
  match d with
  | FuncEventData _ l _ => Some l
  | _ => None
  end.

(** The cells named by the entries of the deque, in order. *)
Definition queue_cells (q : list (Z * Data)) : list loc :=
  omap (λ x, cell_of x.2) q.

(** The observations that concern the cell [l]. *)
Definition about (l : loc) (o : Obs) : bool :=
  match o with
  | Called _ l' _ | Executed l' _ _ _ | Returned _ l' _ => bool_decide (l' = l)
  end.

(** The cell carries the outcome [out], as [FuncHandler] writes it. *)
Definition published (c : ReturnCell) (out : Outcome) : Prop :=
  match out with
  | Returns v => _value c = v ∧ err_flag c = false
  | Raises e => _value c = e ∧ err_flag c = true
  | RaisesBase _ => False
  end.

Section Invariant.

Variable call : PyObj → list PyObj → list (string * PyObj) → World → World * Outcome.

Record Inv (s : State) : Prop := mkInv {
  inv_sorted : StronglySorted Z.lt (map fst (datastream s));
  inv_below : Forall (λ x, x.1 < count s) (datastream s);
  inv_main : ∀ l, local s !! main_thread ≠ Some (Some l);
  inv_main_set : main_cell_set s = true → local s !! main_thread = Some None;
  inv_alloc : ∀ t l, local s !! t = Some (Some l) → is_Some (cells s !! l);
  inv_inj : ∀ t1 t2 l,
    local s !! t1 = Some (Some l) → local s !! t2 = Some (Some l) → t1 = t2;
  inv_wait_local : ∀ t l f,
    waiting s !! t = Some (l, f) → local s !! t = Some (Some l);
  inv_queue : ∀ i h l f,
    (i, FuncEventData h l f) ∈ datastream s →
    ∃ t c, waiting s !! t = Some (l, f) ∧ cells s !! l = Some c ∧ bell c = false;
  inv_nodup : NoDup (queue_cells (datastream s));
  inv_idle : ∀ t l c,
    local s !! t = Some (Some l) → waiting s !! t = None →
    cells s !! l = Some c → _value c = PyNone;
  inv_pending : ∀ t l f c,
    waiting s !! t = Some (l, f) → cells s !! l = Some c → bell c = false →
    _value c = PyNone ∧
    ∃ p, filter (λ o, about l o = true) (history s) = p ++ [Called t l f];
  inv_answered : ∀ t l f c,
    waiting s !! t = Some (l, f) → cells s !! l = Some c → bell c = true →
    ∃ p w out,
      filter (λ o, about l o = true) (history s)
        = p ++ [Called t l f; Executed l f w out] ∧
      snd (run call f w) = out ∧ published c out;
  inv_history : ∀ h1 t l out h2,
    history s = h1 ++ Returned t l out :: h2 →
    ∃ p f w,
      filter (λ o, about l o = true) h1
        = p ++ [Called t l f; Executed l f w out] ∧
      snd (run call f w) = out ∧ ∀ e, out ≠ RaisesBase e;
  inv_none_main : ∀ t, local s !! t = Some None → t = main_thread }.

End Invariant.

(** Two states that differ only in Tk's queue, the bindings and the
    user's objects. *)
Definition core_eq (s s' : State) : Prop :=
  datastream s = datastream s' ∧ count s = count s' ∧ local s = local s' ∧
  main_cell_set s = main_cell_set s' ∧ cells s = cells s' ∧
  waiting s = waiting s' ∧ history s = history s'.

(** A run of [event_generate] calls, each one under the lock. *)
Definition generate_all (calls : list (Widget * string * Data)) (s : State) : State :=
  foldl (λ s c, event_generate c.1.1 c.1.2 c.2 s) s calls.

(** ** Delivery of several events, lost calls *)

Section Delivering.

Variable call : PyObj → list PyObj → list (string * PyObj) → World → World * Outcome.
Variable call_event : PyObj → SmallEvent → World → World * Outcome.

(** Tk running the command [c] once for each argument, in order. *)
Definition deliver (c : Command) (args : list string) (s : State) : State :=
  foldl (λ s a, fst (CallWrapper_call call call_event c a s)) s args.

(** A run of calls through forwarders, each by its thread. *)
Definition call_all
    (xs : list (thread * Forwarder * list PyObj * list (string * PyObj)))
    (s : State) : State :=
  foldl (λ s x, fst (method call x.1.1.2 x.1.2 x.2 x.1.1.1 s)) s xs.

End Delivering.

(** The thread [t] sleeps on the cell [l] in a call of [f], the bell is
    clear and no entry of the deque names the cell. *)
Definition lost (t : thread) (l : loc) (f : Partial) (s : State) : Prop :=
  waiting s !! t = Some (l, f) ∧
  (∃ c, cells s !! l = Some c ∧ bell c = false) ∧
  l ∉ queue_cells (datastream s).

(** ** A second example: an object that records what it is given *)

Module Recorder.

(** [tape.push(x)] appends the digit [x] to the number held in
    [tape.digits]; [tape.fail()] raises a [ValueError]; [tape.stop()]
    raises [KeyboardInterrupt]; [on_error(exc)] stores [exc] in
    [tape.error].  A bound event handler pushes the data of its event. *)
Definition tape : PyObj := PyRef 40.
Definition Tape_push : PyObj := PyRef 41.
Definition Tape_stop : PyObj := PyRef 42.
Definition keyboard_interrupt : PyObj := PyRef 43.
Definition on_error : PyObj := PyRef 44.
Definition Tape_fail : PyObj := PyRef 45.
Definition value_error : PyObj := PyRef 46.
Definition on_test : PyObj := PyRef 47.

Definition digits (w : World) : Z :=
  match w !! (40%positive, "digits"%string) with
  | Some (PyInt n) => n
  | _ => 0
  end.

Definition push (x : Z) (w : World) : World :=
  <[(40%positive, "digits"%string) := PyInt (10 * digits w + x)]> w.

Definition call (f : PyObj) (args : list PyObj) (kwargs : list (string * PyObj))
    (w : World) : World * Outcome :=
  match f, args with
  | PyRef 41, [PyInt x] => (push x w, Returns PyNone)
  | PyRef 42, [] => (w, RaisesBase keyboard_interrupt)
  | PyRef 45, [] => (w, Raises value_error)
  | PyRef 44, [e] => (<[(40%positive, "error"%string) := e]> w, Returns PyNone)
  | _, _ => (w, Raises (PyExc TypeError))
  end.

Definition call_event (f : PyObj) (event : SmallEvent) (w : World)
    : World * Outcome :=
  match data event with
  | UserData (PyInt x) => (push x w, Returns PyNone)
  | _ => (w, Returns PyNone)
  end.

Definition slot : PyObj := PyStr "method-wrapper".

Definition objects : World :=
  setattr tape "push" Tape_push
    (setattr tape "stop" Tape_stop
       (setattr tape "fail" Tape_fail
          (setattr Tape_push "__call__" slot
             (setattr Tape_stop "__call__" slot
                (setattr Tape_fail "__call__" slot
                   (setattr on_error "__call__" slot ∅)))))).

(** None of these objects defines [__bool__] or [__len__]. *)
Definition truth_of (id : positive) (w : World) : World * Result bool :=
  (w, Returns true).

Definition root : Widget := ".".
Definition worker : thread := 2%positive.

(** The module imported by the main thread, [pb = ProxyBuilder(root)],
    then [bind(root, '<<test>>', on_test)]. *)
Definition started : State :=
  fst (ProxyBuilder_init root (init_module main_thread objects)).
Definition pb : ProxyBuilder :=
  snd (ProxyBuilder_init root (init_module main_thread objects)).
Definition bound : State := bind root "<<test>>" (UserFunc on_test) false started.

(** [pb.mute_proxy(tape).push], and [pb.proxy(tape).stop]. *)
Definition push_fw : Forwarder :=
  mkForwarder (ProcGenerator ProcHandler) root Tape_push.
Definition stop_fw : Forwarder :=
  mkForwarder (FuncGenerator FuncHandler) root Tape_stop.

(** The worker thread has called [pb.proxy(tape).stop()] and sleeps. *)
Definition calling_stop : State :=
  fst (method call stop_fw [] [] worker started).

End Recorder.

(** ** A third example: a method with a keyword named [func] *)

Module Keywords.

(** [table.keep(x, func=None)] returns [x]. *)
Definition table : PyObj := PyRef 60.
Definition Table_keep : PyObj := PyRef 61.

Definition call (f : PyObj) (args : list PyObj) (kwargs : list (string * PyObj))
    (w : World) : World * Outcome :=
  match f, args, kwargs with
  | PyRef 61, [x], [] => (w, Returns x)
  | PyRef 61, [x], [("func", _)] => (w, Returns x)
  | _, _, _ => (w, Raises (PyExc TypeError))
  end.

Definition objects : World :=
  setattr table "keep" Table_keep
    (setattr Table_keep "__call__" (PyStr "method-wrapper") ∅).

Definition root : Widget := ".".
Definition worker : thread := 2%positive.

Definition started : State :=
  fst (ProxyBuilder_init root (init_module main_thread objects)).
Definition pb : ProxyBuilder :=
  snd (ProxyBuilder_init root (init_module main_thread objects)).

End Keywords.

(** * Properties *)

(** ** Numerals *)

Lemma int_str (z : Z) : int (str z) = Some z.
Proof.
  unfold int, str.
  rewrite NilZero.isi.
  - simpl. by rewrite DecimalZ.of_to.
  - destruct z; simpl; try discriminate.
    intros [= H]. by apply DecimalPos.Unsigned.to_uint_nonnil in H.
  - destruct z; simpl; try discriminate.
    intros [= H]. by apply DecimalPos.Unsigned.to_uint_nonnil in H.
Qed.

(** ** The dequeue of [_substitute] *)

Lemma dequeue_expected_cons (index n : Z) (d : Data) (q : list (Z * Data)) :
  dequeue_expected index ((n, d) :: q) =
    if n <? index then dequeue_expected index q
    else if n =? index then (q, Returns d)
    else (q, Raises (PyExc AssertionError)).
Proof.
  unfold dequeue_expected. simpl.
  destruct (Z.geb_spec n index) as [Hge|Hlt].
  - destruct (Z.ltb_spec n index); [lia|]. done.
  - destruct (Z.ltb_spec n index); [done|lia].
Qed.

Lemma dequeue_expected_nil (index : Z) :
  dequeue_expected index [] = ([], Raises (PyExc IndexError)).
Proof. reflexivity. Qed.

(** C2.  For every expected index [index], widget and deque whose head is
    [(n, d)], [_substitute] called with the numeral of [index]: discards
    the head and goes on with the rest when [n < index]; returns the event
    carrying [d], the head removed, when [n = index]; fails with
    [AssertionError], the head removed, when [n > index]. *)
Theorem substitute_head (widget : Widget) (index n : Z) (d : Data)
    (q : list (Z * Data)) :
  _substitute widget [str index] ((n, d) :: q) =
    if n <? index then _substitute widget [str index] q
    else if n =? index then (q, Returns (mkSmallEvent d widget))
    else (q, Raises (PyExc AssertionError)).
Proof.
  unfold _substitute. rewrite int_str, dequeue_expected_cons.
  destruct (n <? index); [done|].
  by destruct (n =? index).
Qed.

(** On an empty deque [popleft] raises [IndexError]. *)
Lemma substitute_empty (widget : Widget) (index : Z) :
  _substitute widget [str index] [] = ([], Raises (PyExc IndexError)).
Proof. unfold _substitute. by rewrite int_str. Qed.

Lemma substitute_loop_spec (index : Z) (q q' : list (Z * Data)) (r : Result (Z * Data)) :
  _substitute_loop index q = (q', r) →
  (∃ q1 n d, q = q1 ++ (n, d) :: q' ∧ Forall (λ x, x.1 < index) q1 ∧
             index ≤ n ∧ r = Returns (n, d))
  ∨ (q' = [] ∧ r = Raises (PyExc IndexError) ∧ Forall (λ x, x.1 < index) q).
Proof.
  revert q' r. induction q as [|[n d] q IH]; intros q' r; simpl.
  - intros [= <- <-]. right. by repeat split.
  - destruct (Z.geb_spec n index) as [Hge|Hlt].
    + intros [= <- <-]. left. exists [], n, d. repeat split; [by constructor|lia].
    + intros H. destruct (IH _ _ H) as [(q1 & m & e & -> & Hq1 & Hm & ->)|(-> & -> & Hq)].
      * left. exists ((n, d) :: q1), m, e. repeat split; [|done].
        constructor; [simpl; lia|done].
      * right. repeat split. constructor; [simpl; lia|done].
Qed.

Lemma dequeue_expected_spec (index : Z) (q q' : list (Z * Data)) (r : Result Data) :
  dequeue_expected index q = (q', r) →
  (∃ q1 n d, q = q1 ++ (n, d) :: q' ∧ Forall (λ x, x.1 < index) q1 ∧ index ≤ n ∧
             r = if n =? index then Returns d else Raises (PyExc AssertionError))
  ∨ (q' = [] ∧ r = Raises (PyExc IndexError) ∧ Forall (λ x, x.1 < index) q).
Proof.
  unfold dequeue_expected.
  destruct (_substitute_loop index q) as [q0 r0] eqn:Hloop.
  apply substitute_loop_spec in Hloop
    as [(q1 & n & d & -> & Hq1 & Hn & ->)|(-> & -> & Hq)].
  - intros H. left. exists q1, n, d.
    destruct (n =? index); injection H as <- <-; by repeat split.
  - intros [= <- <-]. right. by repeat split.
Qed.

(** In a deque sorted by index the entry with the expected index is found,
    and everything before it is discarded. *)
Lemma dequeue_expected_found (index : Z) (d : Data) (q1 q2 : list (Z * Data)) :
  StronglySorted Z.lt (map fst (q1 ++ (index, d) :: q2)) →
  dequeue_expected index (q1 ++ (index, d) :: q2) = (q2, Returns d).
Proof.
  induction q1 as [|[n e] q1 IH]; simpl; intros Hs.
  - rewrite dequeue_expected_cons, Z.ltb_irrefl, Z.eqb_refl. done.
  - rewrite dequeue_expected_cons.
    apply StronglySorted_inv in Hs as [Hs Hall].
    rewrite Forall_forall in Hall.
    assert (n < index) as Hlt.
    { apply Hall. rewrite map_app. simpl. apply elem_of_app. right. left. }
    destruct (Z.ltb_spec n index); [|lia]. by apply IH.
Qed.

(** What [_substitute] returns comes from the deque: the event carries
    the data of the entry whose index is the number read from the argument,
    and the widget of the closure. *)
Lemma substitute_spec (wgt : Widget) (a : string) (q q' : list (Z * Data))
    (r : Result SmallEvent) :
  _substitute wgt [a] q = (q', r) →
  match r with
  | Returns ev =>
      widget ev = wgt ∧
      ∃ i q1, int a = Some i ∧ q = q1 ++ (i, data ev) :: q' ∧
              Forall (λ x, x.1 < i) q1
  | _ => ∃ q1, q = q1 ++ q'
  end.
Proof.
  unfold _substitute. destruct (int a) as [i|] eqn:Hint.
  - destruct (dequeue_expected i q) as [q0 r0] eqn:Hd.
    apply dequeue_expected_spec in Hd
      as [(q1 & n & d & -> & Hq1 & Hn & ->)|(-> & -> & Hq)].
    + destruct (Z.eqb_spec n i) as [->|Hne]; intros [= <- <-].
      * split; [done|]. by exists i, q1.
      * exists (q1 ++ [(n, d)]). by rewrite <-app_assoc.
    + intros [= <- <-]. exists q. by rewrite app_nil_r.
  - intros [= <- <-]. by exists [].
Qed.


(** ** Calls through a forwarder *)

(** With no keyword named [func] and a callable attribute, the call of a
    forwarder is the call of the generator with the partial object. *)
Lemma method_forwards
    (call : PyObj → list PyObj → list (string * PyObj) → World → World * Outcome)
    (fw : Forwarder) (args : list PyObj) (kwargs : list (string * PyObj))
    (t : thread) (s : State) :
  "func" ∉ kwargs.*1 →
  callable (world s) (fw_func fw) = true →
  method call fw args kwargs t s =
  Generator_call call (fw_generator fw) t (fw_widget fw)
    (mkPartial (fw_func fw) args kwargs) s.
Proof.
  intros Hk Hc. unfold method.
  rewrite bool_decide_false by done. by rewrite Hc.
Qed.

(** Otherwise it raises [TypeError] in the caller and leaves the state as
    it is. *)
Lemma method_cases
    (call : PyObj → list PyObj → list (string * PyObj) → World → World * Outcome)
    (fw : Forwarder) (args : list PyObj) (kwargs : list (string * PyObj))
    (t : thread) (s : State) :
  method call fw args kwargs t s =
    Generator_call call (fw_generator fw) t (fw_widget fw)
      (mkPartial (fw_func fw) args kwargs) s ∨
  method call fw args kwargs t s = (s, Done (Raises (PyExc TypeError))).
Proof.
  unfold method. case_bool_decide; [by right|].
  destruct (callable (world s) (fw_func fw)); [by left|by right].
Qed.

(** ** The invariant holds in every reachable state *)

Section InvariantProofs.

Variable call : PyObj → list PyObj → list (string * PyObj) → World → World * Outcome.
Variable call_event : PyObj → SmallEvent → World → World * Outcome.

Lemma core_eq_refl s : core_eq s s.
Proof. by repeat split. Qed.

Lemma core_eq_trans s1 s2 s3 : core_eq s1 s2 → core_eq s2 s3 → core_eq s1 s3.
Proof.
  intros (?&?&?&?&?&?&?) (?&?&?&?&?&?&?). repeat split; congruence.
Qed.

Lemma Inv_core_eq s s' : core_eq s s' → Inv call s → Inv call s'.
Proof.
  destruct s, s'. intros (?&?&?&?&?&?&?); simpl in *; subst.
  intros []. by constructor.
Qed.

Lemma core_eq_set_world w s : core_eq s (set_world w s).
Proof. by repeat split. Qed.

Lemma core_eq_set_tk_events l s : core_eq s (set_tk_events l s).
Proof. by repeat split. Qed.

Lemma core_eq_set_tk_bindings m s : core_eq s (set_tk_bindings m s).
Proof. by repeat split. Qed.

Lemma core_eq_run_in func s : core_eq s (fst (run_in call func s)).
Proof.
  unfold run_in. destruct (run call func (world s)). apply core_eq_set_world.
Qed.

Lemma Inv_init t w : Inv call (init_module t w).
Proof.
  assert (Inv call (mkState [] 0 ∅ false ∅ [] ∅ ∅ w [])) as H0.
  { constructor; simpl; try done.
    - constructor.
    - intros ???? H. by apply elem_of_nil in H.
    - constructor.
    - intros h1 ? ? ? h2 H. by destruct h1. }
  unfold init_module. case_bool_decide as Ht; [|done]. subst t.
  unfold return_cell. simpl. rewrite lookup_empty. simpl.
  constructor; simpl; try done.
  - constructor.
  - intros t l. rewrite lookup_insert. case_decide; [done|]. by rewrite lookup_empty.
  - intros t1 t2 l. rewrite lookup_insert. case_decide; [done|]. by rewrite lookup_empty.
  - intros ???? H. by apply elem_of_nil in H.
  - constructor.
  - intros h1 ? ? ? h2 H. by destruct h1.
  - intros t. destruct (decide (t = main_thread)) as [->|N]; [done|].
    by rewrite lookup_insert_ne.
Qed.

(** Dropping entries from the head of the deque. *)
Lemma Inv_pop s q1 q' :
  Inv call s → datastream s = q1 ++ q' → Inv call (set_datastream q' s).
Proof.
  intros [Hs Hb Hm Hms Ha Hi Hwl Hqu Hnd Hid Hp Han Hh Hnm] Hq.
  constructor; simpl; try done.
  - rewrite Hq, map_app in Hs. by apply StronglySorted_app_1_r in Hs.
  - rewrite Hq in Hb. by apply Forall_app in Hb as [_ ?].
  - intros i h l f Hin. apply (Hqu i h l f). rewrite Hq. apply elem_of_app. by right.
  - unfold queue_cells in *. rewrite Hq, omap_app in Hnd.
    by apply NoDup_app in Hnd as (_&_&?).
Qed.

Lemma StronglySorted_snoc (l : list Z) (x : Z) :
  StronglySorted Z.lt l → Forall (λ y, y < x) l → StronglySorted Z.lt (l ++ [x]).
Proof.
  intros Hs Hall. apply StronglySorted_app_2; [|done|repeat constructor].
  intros x1 x2 H1 H2. apply list_elem_of_singleton in H2 as ->.
  rewrite Forall_forall in Hall. by apply Hall.
Qed.

(** The fields of the state after [event_generate]. *)
Lemma event_generate_fields wgt seq d s :
  let s' := event_generate wgt seq d s in
  datastream s' = datastream s ++ [(count s, d)] ∧
  count s' = count s + 1 ∧
  tk_events s' = tk_events s ++ [mkTkEvent wgt seq (str (count s))] ∧
  local s' = local s ∧ main_cell_set s' = main_cell_set s ∧
  cells s' = cells s ∧ waiting s' = waiting s ∧ world s' = world s ∧
  history s' = history s ∧ tk_bindings s' = tk_bindings s.
Proof. by repeat split. Qed.

Lemma sorted_event_generate wgt seq d s :
  StronglySorted Z.lt (map fst (datastream s)) →
  Forall (λ x, x.1 < count s) (datastream s) →
  StronglySorted Z.lt (map fst (datastream (event_generate wgt seq d s))) ∧
  Forall (λ x, x.1 < count (event_generate wgt seq d s))
    (datastream (event_generate wgt seq d s)).
Proof.
  intros Hs Hb. simpl. split.
  - rewrite map_app. simpl. apply StronglySorted_snoc; [done|].
    by apply Forall_fmap.
  - apply Forall_app. split.
    + eapply Forall_impl; [done|]. simpl. lia.
    + repeat constructor. simpl. lia.
Qed.

(** Scheduling data that carries no cell. *)
Lemma Inv_event_generate wgt seq d s :
  cell_of d = None → Inv call s → Inv call (event_generate wgt seq d s).
Proof.
  intros Hd HI.
  destruct (sorted_event_generate wgt seq d s) as [Hs Hb];
    [apply HI|apply HI|].
  destruct HI as [_ _ Hm Hms Ha Hi Hwl Hqu Hnd Hid Hp Han Hh Hnm].
  constructor; try done.
  - intros i h l f Hin. simpl in Hin.
    apply elem_of_app in Hin as [Hin|Hin]; [by eapply Hqu|].
    apply list_elem_of_singleton in Hin. injection Hin as _ <-. discriminate Hd.
  - simpl. unfold queue_cells in *. rewrite omap_app. simpl. rewrite Hd.
    by rewrite app_nil_r.
Qed.

Lemma app_snoc_inv {A} (h h1 h2 : list A) (o x : A) :
  h ++ [o] = h1 ++ x :: h2 →
  (h2 = [] ∧ h = h1 ∧ o = x) ∨ (∃ h2', h2 = h2' ++ [o] ∧ h = h1 ++ x :: h2').
Proof.
  destruct h2 as [|y h2 _] using rev_ind.
  - intros H. apply app_inj_tail in H as [-> ->]. by left.
  - intros H. right. exists h2.
    rewrite app_comm_cons, app_assoc in H.
    apply app_inj_tail in H as [-> ->]. done.
Qed.

Lemma filter_about_snoc l h o :
  filter (λ o, about l o = true) (h ++ [o]) =
  filter (λ o, about l o = true) h ++ (if about l o then [o] else []).
Proof.
  rewrite filter_app. f_equal.
  rewrite filter_cons, filter_nil. destruct (about l o) eqn:E.
  - by rewrite decide_True.
  - by rewrite decide_False.
Qed.

Lemma elem_of_queue_cells i h l f q :
  (i, FuncEventData h l f) ∈ q → l ∈ queue_cells q.
Proof.
  intros Hin. apply list_elem_of_omap. by exists (i, FuncEventData h l f).
Qed.

Lemma published_ops out c :
  (∀ e, out ≠ RaisesBase e) →
  published (cell_ops (FuncHandler_ops out) c) out ∧
  bell (cell_ops (FuncHandler_ops out) c) = true.
Proof. destruct out; simpl; intros H; [done|done|by destruct (H e)]. Qed.

(** [FuncHandler] publishing the outcome of a pending call. *)
Lemma Inv_publish s l t f c w out :
  Inv call s →
  waiting s !! t = Some (l, f) → cells s !! l = Some c → bell c = false →
  l ∉ queue_cells (datastream s) →
  snd (run call f w) = out → (∀ e, out ≠ RaisesBase e) →
  Inv call (observe (Executed l f w out) (write_cell l (FuncHandler_ops out) s)).
Proof.
  intros [Hs Hb Hm Hms Ha Hi Hwl Hqu Hnd Hid Hp Han Hh Hnm] Hw Hc Hbell Hl Hrun Hout.
  destruct (published_ops out c Hout) as [Hpub Hbell'].
  constructor; simpl; try done.
  - intros t' l' Hl'. apply lookup_alter_is_Some. by eapply Ha.
  - intros i h l' f' Hin.
    destruct (Hqu _ _ _ _ Hin) as (t' & c' & Hw' & Hc' & Hb').
    exists t', c'. split; [done|]. split; [|done].
    rewrite lookup_alter_ne; [done|].
    intros <-. apply Hl. by eapply elem_of_queue_cells.
  - intros t' l' c' Hloc Hidle. rewrite lookup_alter_ne; [by eapply Hid|].
    intros <-. pose proof (Hwl _ _ _ Hw) as Hlw.
    rewrite (Hi _ _ _ Hloc Hlw) in Hidle. congruence.
  - intros t' l' f' c' Hw' Hc' Hb'.
    destruct (decide (l = l')) as [<-|Hne].
    + rewrite lookup_alter_eq, Hc in Hc'. simpl in Hc'.
      injection Hc' as <-. congruence.
    + rewrite lookup_alter_ne in Hc' by done.
      destruct (Hp _ _ _ _ Hw' Hc' Hb') as [Hv [p Hf]]. split; [done|].
      exists p. rewrite filter_about_snoc. simpl.
      rewrite bool_decide_false by done. by rewrite app_nil_r.
  - intros t' l' f' c' Hw' Hc' Hb'.
    destruct (decide (l = l')) as [<-|Hne].
    + rewrite lookup_alter_eq, Hc in Hc'. simpl in Hc'. injection Hc' as <-.
      assert (t' = t) as ->.
      { eapply Hi; by eapply Hwl. }
      rewrite Hw in Hw'. injection Hw' as <-.
      destruct (Hp _ _ _ _ Hw Hc Hbell) as [_ [p Hf]].
      exists p, w, out. split; [|done].
      rewrite filter_about_snoc, Hf. simpl.
      rewrite bool_decide_true by done. by rewrite <-app_assoc.
    + rewrite lookup_alter_ne in Hc' by done.
      destruct (Han _ _ _ _ Hw' Hc' Hb') as (p & w' & out' & Hf & ? & ?).
      exists p, w', out'. split; [|done].
      rewrite filter_about_snoc. simpl.
      rewrite bool_decide_false by done. by rewrite app_nil_r.
  - intros h1 t' l' out' h2 Heq.
    apply app_snoc_inv in Heq as [(_ & _ & [=])|(h2' & -> & Heq)].
    by eapply Hh.
Qed.

Lemma core_eq_ProcHandler_call ev s :
  core_eq s (fst (ProcHandler_call call ev s)).
Proof.
  unfold ProcHandler_call.
  destruct (data ev); try apply core_eq_refl;
    pose proof (core_eq_run_in func s) as H;
    destruct (run_in call func s) as [s1 []]; done.
Qed.

Lemma core_eq_ProcExcHandler_call exc_handler ev s :
  core_eq s (fst (ProcExcHandler_call call exc_handler ev s)).
Proof.
  unfold ProcExcHandler_call.
  destruct (data ev); try apply core_eq_refl;
    pose proof (core_eq_run_in func s) as H;
    destruct (run_in call func s) as [s1 []]; try done;
    destruct (call exc_handler [e] [] (world s1)) as [w []]; simpl;
    (eapply core_eq_trans; [exact H|apply core_eq_set_world]).
Qed.

Lemma FuncHandler_call_fst ev s h l f :
  data ev = FuncEventData h l f →
  fst (FuncHandler_call call ev s) =
    match snd (run call f (world s)) with
    | RaisesBase _ => set_world (fst (run call f (world s))) s
    | out => observe (Executed l f (world s) out)
               (write_cell l (FuncHandler_ops out)
                  (set_world (fst (run call f (world s))) s))
    end.
Proof.
  intros Hd. unfold FuncHandler_call, run_in. rewrite Hd.
  by destruct (run call f (world s)) as [w []].
Qed.

Lemma handle_call_fst ev s :
  fst (handle_call call ev s) =
    match data ev with
    | UserData _ => s
    | ProcEventData h _ | FuncEventData h _ _ => fst (Handler_call call h ev s)
    end.
Proof.
  unfold handle_call.
  destruct (data ev); [done| |];
    by destruct (Handler_call call handler ev s) as [s1 []].
Qed.

(** [handle_call] on the event built from an entry taken off the deque. *)
Lemma Inv_handle_call s0 q1 i d q' wgt :
  Inv call s0 → datastream s0 = q1 ++ (i, d) :: q' →
  Inv call (fst (handle_call call (mkSmallEvent d wgt) (set_datastream q' s0))).
Proof.
  intros HI Hq.
  assert (Inv call (set_datastream q' s0)) as HI1.
  { apply (Inv_pop _ (q1 ++ [(i, d)])); [done|]. by rewrite <-app_assoc. }
  rewrite handle_call_fst. simpl.
  destruct d as [o|h f|h l f]; [done| |].
  - destruct h; simpl.
    + eapply Inv_core_eq; [apply core_eq_ProcHandler_call|done].
    + eapply Inv_core_eq; [apply core_eq_ProcExcHandler_call|done].
    + done.
  - destruct h; simpl.
    + eapply Inv_core_eq; [apply core_eq_ProcHandler_call|done].
    + eapply Inv_core_eq; [apply core_eq_ProcExcHandler_call|done].
    + erewrite FuncHandler_call_fst by done. simpl.
      set (w := world s0).
      destruct (run call f w) as [w' out] eqn:Hrun. simpl.
      assert (Inv call (set_world w' (set_datastream q' s0))) as HI2.
      { eapply Inv_core_eq; [apply core_eq_set_world|done]. }
      assert (∃ t c, waiting s0 !! t = Some (l, f) ∧ cells s0 !! l = Some c ∧
                     bell c = false) as (t & c & Hw & Hc & Hb).
      { eapply (inv_queue call s0 HI i). rewrite Hq.
        apply elem_of_app. right. left. }
      assert (l ∉ queue_cells q') as Hl.
      { pose proof (inv_nodup call s0 HI) as Hnd.
        unfold queue_cells in *. rewrite Hq, omap_app in Hnd. simpl in Hnd.
        apply NoDup_app in Hnd as (_ & _ & Hnd).
        by apply NoDup_cons in Hnd as [? _]. }
      destruct out as [v|e|e]; [| |done].
      * apply (Inv_publish _ l t f c w (Returns v)); try done. by rewrite Hrun.
      * apply (Inv_publish _ l t f c w (Raises e)); try done. by rewrite Hrun.
Qed.

Lemma Inv_CallWrapper_call c arg s :
  Inv call s → Inv call (fst (CallWrapper_call call call_event c arg s)).
Proof.
  intros HI. unfold CallWrapper_call.
  destruct (_substitute (cmd_widget c) [arg] (datastream s)) as [q r] eqn:Hsub.
  apply substitute_spec in Hsub.
  destruct r as [ev|e|e].
  - destruct Hsub as (Hw & i & q1 & _ & Hq & _).
    destruct (cmd_func c) as [|g]; unfold call_bound.
    + destruct ev as [d wgt]. simpl in Hq. by eapply Inv_handle_call.
    + destruct (call_event g ev (world (set_datastream q s))) as [w out].
      cbn [fst].
      eapply Inv_core_eq; [apply core_eq_set_world|].
      apply (Inv_pop _ (q1 ++ [(i, data ev)])); [done|]. by rewrite <-app_assoc.
  - destruct Hsub as [q1 Hq]. simpl. by eapply Inv_pop.
  - destruct Hsub as [q1 Hq]. simpl. by eapply Inv_pop.
Qed.

Lemma Inv_run_script cs arg s :
  Inv call s → Inv call (run_script call call_event cs arg s).
Proof.
  revert s. induction cs as [|c cs IH]; intros s HI; simpl; [done|].
  pose proof (Inv_CallWrapper_call c arg s HI) as H1.
  destruct (CallWrapper_call call call_event c arg s) as [s1 out]. simpl in H1.
  destruct out as [v|e|e]; try by apply IH.
  destruct v; try by apply IH.
  repeat (case_match; try by apply IH). done.
Qed.

Lemma Inv_dispatch tags s s' :
  Inv call s → dispatch call call_event tags s = Some s' → Inv call s'.
Proof.
  intros HI. unfold dispatch. destruct (tk_events s) as [|e es]; [done|].
  intros [= <-]. apply Inv_run_script.
  eapply Inv_core_eq; [apply core_eq_set_tk_events|done].
Qed.

Lemma queue_cells_elem_of l q :
  l ∈ queue_cells q → ∃ i h f, (i, FuncEventData h l f) ∈ q.
Proof.
  intros Hin. apply list_elem_of_omap in Hin as ([i d] & Hin & Hd).
  destruct d; simplify_eq/=. eauto.
Qed.

(** [return_cell()] called by a thread that is not waiting. *)
Lemma return_cell_spec t s :
  Inv call s →
  Inv call (fst (return_cell t s)) ∧
  local (fst (return_cell t s)) !! t = Some (snd (return_cell t s)) ∧
  waiting (fst (return_cell t s)) = waiting s ∧
  datastream (fst (return_cell t s)) = datastream s ∧
  count (fst (return_cell t s)) = count s ∧
  history (fst (return_cell t s)) = history s ∧
  tk_events (fst (return_cell t s)) = tk_events s ∧
  world (fst (return_cell t s)) = world s.
Proof.
  intros HI. unfold return_cell.
  destruct (local s !! t) as [c|] eqn:Hloc; [done|].
  destruct (main_cell_set s || negb (bool_decide (t = main_thread))) eqn:Hcond;
    simpl; (split; [|by rewrite lookup_insert_eq]).
  - assert (t ≠ main_thread) as Hne.
    { intros ->. rewrite bool_decide_true in Hcond by done.
      rewrite orb_false_r in Hcond.
      apply (inv_main_set call s HI) in Hcond. congruence. }
    assert (cells s !! fresh (dom (cells s)) = None) as Hfresh.
    { apply not_elem_of_dom. apply is_fresh. }
    remember (fresh (dom (cells s))) as l eqn:El. clear El.
    destruct HI as [Hs Hb Hm Hms Ha Hi Hwl Hqu Hnd Hid Hp Han Hh Hnm].
    constructor; simpl; try done.
    + intros l'. rewrite lookup_insert_ne by done. apply Hm.
    + intros H. rewrite lookup_insert_ne by done. by apply Hms.
    + intros t' l'. destruct (decide (t' = t)) as [->|N].
      * rewrite lookup_insert_eq. intros [= <-]. by rewrite lookup_insert_eq.
      * rewrite lookup_insert_ne by done.
        intros H'. apply Ha in H'. rewrite lookup_insert_ne; [done|].
        intros <-. rewrite Hfresh in H'. by destruct H'.
    + intros t1 t2 l' H1 H2.
      destruct (decide (t1 = t)) as [->|N1], (decide (t2 = t)) as [->|N2];
        [done| | |].
      * rewrite lookup_insert_eq in H1. rewrite lookup_insert_ne in H2 by done.
        injection H1 as <-. apply Ha in H2. rewrite Hfresh in H2. by destruct H2.
      * rewrite lookup_insert_eq in H2. rewrite lookup_insert_ne in H1 by done.
        injection H2 as <-. apply Ha in H1. rewrite Hfresh in H1. by destruct H1.
      * rewrite lookup_insert_ne in H1, H2 by done. by eapply Hi.
    + intros t' l' f Hw. rewrite lookup_insert_ne; [by eapply Hwl|].
      intros <-. apply Hwl in Hw. congruence.
    + intros i h l' f Hin. destruct (Hqu _ _ _ _ Hin) as (t' & c' & ? & Hc' & ?).
      exists t', c'. split; [done|]. split; [|done].
      rewrite lookup_insert_ne; [done|]. intros <-. congruence.
    + intros t' l' c' H1 H2 H3.
      destruct (decide (t' = t)) as [->|N1].
      * rewrite lookup_insert_eq in H1. injection H1 as <-.
        rewrite lookup_insert_eq in H3. by injection H3 as <-.
      * rewrite lookup_insert_ne in H1 by done.
        rewrite lookup_insert_ne in H3; [by eapply Hid|].
        intros <-. apply Ha in H1. rewrite Hfresh in H1. by destruct H1.
    + intros t' l' f c' Hw Hc'. rewrite lookup_insert_ne in Hc'; [by eapply Hp|].
      intros <-. apply Hwl, Ha in Hw. rewrite Hfresh in Hw. by destruct Hw.
    + intros t' l' f c' Hw Hc'. rewrite lookup_insert_ne in Hc'; [by eapply Han|].
      intros <-. apply Hwl, Ha in Hw. rewrite Hfresh in Hw. by destruct Hw.
    + intros t'. destruct (decide (t' = t)) as [->|N].
      * by rewrite lookup_insert_eq.
      * rewrite lookup_insert_ne by done. apply Hnm.
  - apply orb_false_iff in Hcond as [Hset Ht].
    apply negb_false_iff, bool_decide_eq_true in Ht. subst t.
    destruct HI as [Hs Hb Hm Hms Ha Hi Hwl Hqu Hnd Hid Hp Han Hh Hnm].
    constructor; simpl; try done.
    + intros l. by rewrite lookup_insert_eq.
    + intros _. by rewrite lookup_insert_eq.
    + intros t' l'. destruct (decide (t' = main_thread)) as [->|N].
      * by rewrite lookup_insert_eq.
      * rewrite lookup_insert_ne by done. apply Ha.
    + intros t1 t2 l' H1 H2.
      destruct (decide (t1 = main_thread)) as [->|N1];
        [by rewrite lookup_insert_eq in H1|].
      destruct (decide (t2 = main_thread)) as [->|N2];
        [by rewrite lookup_insert_eq in H2|].
      rewrite lookup_insert_ne in H1, H2 by done. by eapply Hi.
    + intros t' l' f Hw. rewrite lookup_insert_ne; [by eapply Hwl|].
      intros <-. apply Hwl in Hw. congruence.
    + intros t' l' c'. destruct (decide (t' = main_thread)) as [->|N].
      * by rewrite lookup_insert_eq.
      * rewrite lookup_insert_ne by done. apply Hid.
    + intros t'. destruct (decide (t' = main_thread)) as [->|N]; [done|].
      rewrite lookup_insert_ne by done. apply Hnm.
Qed.

(** A thread with a cell schedules a call and falls asleep. *)
Lemma Inv_schedule s t l h wgt func :
  Inv call s → waiting s !! t = None → local s !! t = Some (Some l) →
  Inv call
    (observe (Called t l func)
       (set_waiting
          (<[t := (l, func)]>
             (waiting (event_generate wgt virtual_event (FuncEventData h l func)
                         (write_cell l [BellClear] s))))
          (event_generate wgt virtual_event (FuncEventData h l func)
             (write_cell l [BellClear] s)))).
Proof.
  intros HI Hidle Hloc.
  destruct (sorted_event_generate wgt virtual_event (FuncEventData h l func)
              (write_cell l [BellClear] s)) as [Hs' Hb']; [apply HI|apply HI|].
  destruct HI as [Hs Hb Hm Hms Ha Hi Hwl Hqu Hnd Hid Hp Han Hh Hnm].
  destruct (Ha _ _ Hloc) as [cl Hcl].
  assert (∀ t' l' f', waiting s !! t' = Some (l', f') → t' ≠ t ∧ l' ≠ l) as Hother.
  { intros t' l' f' Hw'. split; [congruence|].
    intros ->. pose proof (Hi _ _ _ (Hwl _ _ _ Hw') Hloc) as ->. congruence. }
  constructor; try done; simpl.
  - intros t' l' Hl'. apply lookup_alter_is_Some. by eapply Ha.
  - intros t' l' f'. destruct (decide (t' = t)) as [->|N].
    + rewrite lookup_insert_eq. by intros [= <- <-].
    + rewrite lookup_insert_ne by done. apply Hwl.
  - intros i h' l' f' Hin. apply elem_of_app in Hin as [Hin|Hin].
    + destruct (Hqu _ _ _ _ Hin) as (t' & c' & Hw' & Hc' & Hbell).
      destruct (Hother _ _ _ Hw') as [? ?].
      exists t', c'. by rewrite lookup_insert_ne, lookup_alter_ne.
    + apply list_elem_of_singleton in Hin. injection Hin as -> -> -> ->.
      exists t, (cell_ops [BellClear] cl).
      by rewrite lookup_insert_eq, lookup_alter_eq, Hcl.
  - unfold queue_cells in *. rewrite omap_app. simpl.
    apply NoDup_app. split; [done|]. split; [|apply NoDup_singleton].
    intros l' Hin Hl'. apply list_elem_of_singleton in Hl' as ->.
    apply queue_cells_elem_of in Hin as (i & h' & f' & Hin).
    destruct (Hqu _ _ _ _ Hin) as (t' & c' & Hw' & _).
    by destruct (Hother _ _ _ Hw').
  - intros t' l' c' Hl' Hw'.
    destruct (decide (t' = t)) as [->|N]; [by rewrite lookup_insert_eq in Hw'|].
    rewrite lookup_insert_ne in Hw' by done.
    rewrite lookup_alter_ne; [by eapply Hid|].
    intros <-. by apply N, (Hi _ _ l).
  - intros t' l' f' c' Hw' Hc' Hbell.
    destruct (decide (t' = t)) as [->|N].
    + rewrite lookup_insert_eq in Hw'. injection Hw' as <- <-.
      rewrite lookup_alter_eq, Hcl in Hc'. injection Hc' as <-. simpl. split.
      * by eapply Hid.
      * exists (filter (λ o, about l o = true) (history s)).
        rewrite filter_about_snoc. simpl. by rewrite bool_decide_true.
    + rewrite lookup_insert_ne in Hw' by done.
      destruct (Hother _ _ _ Hw') as [_ Hl'].
      rewrite lookup_alter_ne in Hc' by done.
      destruct (Hp _ _ _ _ Hw' Hc' Hbell) as [Hv [p Hf]]. split; [done|].
      exists p. rewrite filter_about_snoc. simpl.
      rewrite bool_decide_false by done. by rewrite app_nil_r.
  - intros t' l' f' c' Hw' Hc' Hbell.
    destruct (decide (t' = t)) as [->|N].
    + rewrite lookup_insert_eq in Hw'. injection Hw' as <- <-.
      rewrite lookup_alter_eq, Hcl in Hc'. by injection Hc' as <-.
    + rewrite lookup_insert_ne in Hw' by done.
      destruct (Hother _ _ _ Hw') as [_ Hl'].
      rewrite lookup_alter_ne in Hc' by done.
      destruct (Han _ _ _ _ Hw' Hc' Hbell) as (p & w & out & Hf & ? & ?).
      exists p, w, out. split; [|done]. rewrite filter_about_snoc. simpl.
      rewrite bool_decide_false by done. by rewrite app_nil_r.
  - intros h1 t' l' out' h2 Heq.
    apply app_snoc_inv in Heq as [(_ & _ & [=])|(h2' & -> & Heq)].
    by eapply Hh.
Qed.

Lemma Inv_FuncGenerator_call h t wgt func s :
  Inv call s → waiting s !! t = None →
  Inv call (fst (FuncGenerator_call call h t wgt func s)).
Proof.
  intros HI Hidle. unfold FuncGenerator_call.
  destruct (return_cell_spec t s HI) as (HI1 & Hloc & Hw & _).
  destruct (return_cell t s) as [s1 [l|]]; simpl in *.
  - apply Inv_schedule; [done|congruence|done].
  - pose proof (core_eq_run_in func s1) as Hc.
    destruct (run_in call func s1) as [s2 out]. by eapply Inv_core_eq.
Qed.

Lemma published_outcome c out :
  published c out →
  (if err_flag c then Raises (_value c) else Returns (_value c)) = out.
Proof. destruct out; simpl; [|  |done]; by intros [-> ->]. Qed.

(** The state after the waiting thread has read its cell. *)
Lemma FuncGenerator_resume_Some t l s s' out :
  FuncGenerator_resume t l s = Some (s', out) →
  ∃ c, cells s !! l = Some c ∧ bell c = true ∧
       out = (if err_flag c then Raises (_value c) else Returns (_value c)) ∧
       s' = observe (Returned t l out)
              (set_waiting (delete t (waiting s))
                 (write_cell l [SetReturn PyNone] s)).
Proof.
  unfold FuncGenerator_resume. destruct (cells s !! l) as [c|]; [|done].
  destruct (bell c) eqn:Hb; [|done]. intros [= <- <-]. by exists c.
Qed.

Lemma Inv_resume t l f s s' out :
  Inv call s → waiting s !! t = Some (l, f) →
  FuncGenerator_resume t l s = Some (s', out) → Inv call s'.
Proof.
  intros HI Hw Hres.
  apply FuncGenerator_resume_Some in Hres as (c & Hc & Hbell & Hout & ->).
  destruct HI as [Hs Hb Hm Hms Ha Hi Hwl Hqu Hnd Hid Hp Han Hh Hnm].
  destruct (Han _ _ _ _ Hw Hc Hbell) as (p & w & out' & Hf & Hrun & Hpub).
  assert (out = out') as ->.
  { rewrite Hout. by apply published_outcome. }
  assert (∀ t' l' f', t' ≠ t → waiting s !! t' = Some (l', f') → l' ≠ l) as Hother.
  { intros t' l' f' N Hw' ->. apply N. eapply Hi; by eapply Hwl. }
  constructor; try done; simpl.
  - intros t' l' Hl'. apply lookup_alter_is_Some. by eapply Ha.
  - intros t' l' f'. destruct (decide (t' = t)) as [->|N].
    + by rewrite lookup_delete_eq.
    + rewrite lookup_delete_ne by done. apply Hwl.
  - intros i h' l' f' Hin.
    destruct (Hqu _ _ _ _ Hin) as (t' & c' & Hw' & Hc' & Hbell').
    assert (l' ≠ l) as Hl' by (intros ->; congruence).
    assert (t' ≠ t) as Ht' by (intros ->; congruence).
    exists t', c'. by rewrite lookup_delete_ne, lookup_alter_ne.
  - intros t' l' c' Hl' Hw' Hc'.
    destruct (decide (t' = t)) as [->|N].
    + apply Hwl in Hw. rewrite Hw in Hl'. injection Hl' as <-.
      rewrite lookup_alter_eq, Hc in Hc'. by injection Hc' as <-.
    + rewrite lookup_delete_ne in Hw' by done.
      rewrite lookup_alter_ne in Hc'; [by eapply Hid|].
      intros <-. apply N. eapply Hi; [done|by eapply Hwl].
  - intros t' l' f' c' Hw' Hc' Hbell'.
    destruct (decide (t' = t)) as [->|N]; [by rewrite lookup_delete_eq in Hw'|].
    rewrite lookup_delete_ne in Hw' by done.
    pose proof (Hother _ _ _ N Hw') as Hl'.
    rewrite lookup_alter_ne in Hc' by done.
    destruct (Hp _ _ _ _ Hw' Hc' Hbell') as [Hv [p' Hf']]. split; [done|].
    exists p'. rewrite filter_about_snoc. simpl.
    rewrite bool_decide_false by done. by rewrite app_nil_r.
  - intros t' l' f' c' Hw' Hc' Hbell'.
    destruct (decide (t' = t)) as [->|N]; [by rewrite lookup_delete_eq in Hw'|].
    rewrite lookup_delete_ne in Hw' by done.
    pose proof (Hother _ _ _ N Hw') as Hl'.
    rewrite lookup_alter_ne in Hc' by done.
    destruct (Han _ _ _ _ Hw' Hc' Hbell') as (p' & w' & out'' & Hf' & ? & ?).
    exists p', w', out''. split; [|done]. rewrite filter_about_snoc. simpl.
    rewrite bool_decide_false by done. by rewrite app_nil_r.
  - intros h1 t' l' out'' h2 Heq.
    apply app_snoc_inv in Heq as [(_ & <- & [= <- <- <-])|(h2' & -> & Heq)].
    + exists p, f, w. split; [done|]. split; [done|].
      intros e ->. done.
    + by eapply Hh.
Qed.

Lemma Inv_exec a s s' :
  Inv call s → exec call call_event a s = Some s' → Inv call s'.
Proof.
  intros HI. destruct a; simpl; unfold awake.
  - case_bool_decide; [|done]. intros [= <-]. by apply Inv_event_generate.
  - case_bool_decide; [|done]. intros [= <-].
    eapply Inv_core_eq; [apply core_eq_set_tk_bindings|done].
  - case_bool_decide; [|done]. intros [= <-].
    eapply Inv_core_eq; [apply core_eq_set_tk_bindings|done].
  - case_bool_decide; [|done]. intros [= <-].
    destruct (method_cases call fw args kwargs t s) as [-> | ->]; [|done].
    unfold Generator_call. destruct (fw_generator fw).
    + by apply Inv_event_generate.
    + by apply Inv_FuncGenerator_call.
  - destruct (waiting s !! t) as [[l f]|] eqn:Hw; [|done].
    destruct (FuncGenerator_resume t l s) as [[s1 out]|] eqn:Hres; [|done].
    intros [= <-]. by eapply Inv_resume.
  - by apply Inv_dispatch.
  - case_bool_decide; [|done]. intros [= <-].
    eapply Inv_core_eq; [apply core_eq_set_world|done].
Qed.

Lemma Inv_execs acts s s' :
  Inv call s → execs call call_event acts s = Some s' → Inv call s'.
Proof.
  revert s. induction acts as [|a acts IH]; intros s HI; simpl.
  - by intros [= <-].
  - destruct (exec call call_event a s) as [s1|] eqn:Hex; [|done].
    apply IH. by eapply Inv_exec.
Qed.

Theorem reachable_Inv s : reachable call call_event s → Inv call s.
Proof.
  intros (t & w & acts & Hex). eapply Inv_execs; [apply Inv_init|done].
Qed.

End InvariantProofs.

(** ** Scheduling *)

Section Scheduling.

Variable call : PyObj → list PyObj → list (string * PyObj) → World → World * Outcome.
Variable call_event : PyObj → SmallEvent → World → World * Outcome.

Lemma generate_all_cons c calls s :
  generate_all (c :: calls) s =
  generate_all calls (event_generate c.1.1 c.1.2 c.2 s).
Proof. reflexivity. Qed.

(** What a run of [event_generate] appends to the deque and to Tk's
    queue. *)
Lemma generate_all_spec calls s :
  ∃ entries events,
    datastream (generate_all calls s) = datastream s ++ entries ∧
    tk_events (generate_all calls s) = tk_events s ++ events ∧
    map fst entries = seqZ (count s) (Z.of_nat (length calls)) ∧
    map snd entries = map snd calls ∧
    map (λ e, int (ev_data e)) events = map (λ x, Some x.1) entries ∧
    map (λ e, (ev_widget e, ev_sequence e)) events = map fst calls ∧
    count (generate_all calls s) = count s + Z.of_nat (length calls).
Proof.
  revert s. induction calls as [|c calls IH]; intros s.
  - exists [], []. simpl. rewrite !app_nil_r. repeat split; lia.
  - rewrite generate_all_cons.
    destruct (IH (event_generate c.1.1 c.1.2 c.2 s))
      as (entries & events & Hd & Ht & Hi & Hs & Hn & Hw & Hc).
    exists ((count s, c.2) :: entries),
           (mkTkEvent c.1.1 c.1.2 (str (count s)) :: events).
    rewrite Hd, Ht, Hc. simpl. rewrite <-!app_assoc. simpl.
    repeat split.
    + rewrite Hi. simpl.
      rewrite (seqZ_cons (count s)) by lia. f_equal. f_equal; lia.
    + by rewrite Hs.
    + by rewrite int_str, Hn.
    + rewrite Hw. by destruct c as [[? ?] ?].
    + lia.
Qed.

Lemma sorted_generate_all calls s :
  StronglySorted Z.lt (map fst (datastream s)) →
  Forall (λ x, x.1 < count s) (datastream s) →
  StronglySorted Z.lt (map fst (datastream (generate_all calls s))).
Proof.
  revert s. induction calls as [|c calls IH]; intros s Hs Hb; [done|].
  rewrite generate_all_cons.
  destruct (sorted_event_generate c.1.1 c.1.2 c.2 s Hs Hb). by apply IH.
Qed.

(** C7.  Any run of [event_generate] calls from a reachable state: the
    entries appended to the deque carry the consecutive values of the
    counter, so the indices of the whole deque are strictly increasing
    (hence pairwise distinct), and the Nth event given to Tk carries the
    numeral of the index of the Nth entry appended. *)
Theorem event_generate_order calls s :
  reachable call call_event s →
  let s' := generate_all calls s in
  let entries := drop (length (datastream s)) (datastream s') in
  let events := drop (length (tk_events s)) (tk_events s') in
  datastream s' = datastream s ++ entries ∧
  tk_events s' = tk_events s ++ events ∧
  map fst entries = seqZ (count s) (Z.of_nat (length calls)) ∧
  map snd entries = map snd calls ∧
  (∀ N e x, events !! N = Some e → entries !! N = Some x →
            int (ev_data e) = Some x.1) ∧
  length events = length entries ∧
  StronglySorted Z.lt (map fst (datastream s')) ∧
  count s' = count s + Z.of_nat (length calls).
Proof.
  intros Hr. apply reachable_Inv in Hr.
  destruct (generate_all_spec calls s)
    as (entries & events & Hd & Ht & Hi & Hs & Hn & Hw & Hc).
  simpl. rewrite Hd, Ht, !drop_app_length.
  repeat split; try done.
  - intros N e x He Hx.
    assert (map (λ e, int (ev_data e)) events !! N = Some (int (ev_data e))) as H1.
    { by rewrite list_lookup_fmap, He. }
    rewrite Hn, list_lookup_fmap, Hx in H1. simpl in H1. congruence.
  - apply (f_equal length) in Hn. by rewrite !length_map in Hn.
  - rewrite <-Hd. apply sorted_generate_all; apply Hr.
Qed.

End Scheduling.

Lemma started_reachable : reachable Demo.call Demo.call_event Demo.started.
Proof. by exists main_thread, Demo.objects, [AProxyBuilder main_thread Demo.root]. Qed.

Lemma event_generate_order_witness :
  let calls := [(Demo.root, "<<test>>"%string, UserData (PyStr "a"));
                (Demo.button, "<<test>>"%string, UserData (PyStr "hi there"))] in
  let s' := generate_all calls Demo.started in
  reachable Demo.call Demo.call_event Demo.started ∧
  map fst (drop (length (datastream Demo.started)) (datastream s')) = [0; 1] ∧
  StronglySorted Z.lt (map fst (datastream s')).
Proof.
  intros calls s'.
  pose proof (event_generate_order Demo.call Demo.call_event calls Demo.started
                started_reachable) as (_ & _ & Hi & _ & _ & _ & Hs & _).
  split; [apply started_reachable|]. split; [exact Hi|exact Hs].
Defined.

(** ** Delivery to a bound handler *)

Section Delivery.

Variable call : PyObj → list PyObj → list (string * PyObj) → World → World * Outcome.
Variable call_event : PyObj → SmallEvent → World → World * Outcome.

Lemma substitute_found wgt i d q1 q2 :
  StronglySorted Z.lt (map fst (q1 ++ (i, d) :: q2)) →
  _substitute wgt [str i] (q1 ++ (i, d) :: q2) = (q2, Returns (mkSmallEvent d wgt)).
Proof.
  intros Hs. unfold _substitute. by rewrite int_str, dequeue_expected_found.
Qed.

(** C10.  In a reachable state, let [(i, d)] be an entry of the deque:
    [d] is the object given to the [event_generate] call that drew the
    index [i], whatever widget that call named.  When Tk runs a command
    registered by [bind] with the numeral of [i], the bound function is
    called with the event [SmallEvent(d, widget)] where [widget] is the
    one given to [bind]; and every event [_substitute] returns carries
    the widget of its closure and the data of an entry of the deque. *)
Theorem bound_handler_event s :
  reachable call call_event s →
  (∀ wgt_gen sequence d,
     let s1 := event_generate wgt_gen sequence d s in
     datastream s1 = datastream s ++ [(count s, d)] ∧
     last (tk_events s1) = Some (mkTkEvent wgt_gen sequence (str (count s)))) ∧
  (∀ wgt_bind sequence func add,
     last (default [] (tk_bindings (bind wgt_bind sequence func add s)
                         !! (wgt_bind, sequence)))
     = Some (mkCommand wgt_bind func)) ∧
  (∀ c i d q1 q2,
     datastream s = q1 ++ (i, d) :: q2 →
     CallWrapper_call call call_event c (str i) s =
     call_bound call call_event (cmd_func c) (mkSmallEvent d (cmd_widget c))
       (set_datastream q2 s)) ∧
  (∀ wgt_bind a q' ev,
     _substitute wgt_bind [a] (datastream s) = (q', Returns ev) →
     widget ev = wgt_bind ∧ ∃ i, int a = Some i ∧ (i, data ev) ∈ datastream s).
Proof.
  intros Hr. apply reachable_Inv in Hr. repeat split.
  - simpl. by rewrite last_snoc.
  - intros wb sequence func add. simpl. rewrite lookup_insert_eq. simpl.
    destruct add; [by rewrite last_snoc|done].
  - intros c i d q1 q2 Hq. unfold CallWrapper_call.
    rewrite Hq, substitute_found; [done|]. rewrite <-Hq. apply Hr.
  - apply substitute_spec in H. apply H.
  - apply substitute_spec in H as (_ & i & q1 & Hi & Hq & _).
    exists i. split; [done|]. rewrite Hq. apply elem_of_app. right. left.
Qed.

End Delivery.

(** An event generated on the button reaches the handler bound on the root
    window with the root window as its widget. *)
Lemma bound_handler_event_witness :
  let s := event_generate Demo.button "<<test>>" (UserData (PyStr "hi there"))
             Demo.started in
  let c := mkCommand Demo.root (UserFunc (PyRef 30)) in
  reachable Demo.call Demo.call_event s ∧
  datastream s = [] ++ (0, UserData (PyStr "hi there")) :: [] ∧
  CallWrapper_call Demo.call Demo.call_event c (str 0) s =
  call_bound Demo.call Demo.call_event (UserFunc (PyRef 30))
    (mkSmallEvent (UserData (PyStr "hi there")) Demo.root) (set_datastream [] s).
Proof.
  intros s c.
  assert (reachable Demo.call Demo.call_event s) as Hr.
  { by exists main_thread, Demo.objects,
      [AProxyBuilder main_thread Demo.root;
       AEventGenerate Demo.worker Demo.button "<<test>>" (PyStr "hi there")]. }
  assert (datastream s = [] ++ (0, UserData (PyStr "hi there")) :: []) as Hq
    by reflexivity.
  split; [exact Hr|]. split; [exact Hq|].
  exact (proj1 (proj2 (proj2 (bound_handler_event Demo.call Demo.call_event s Hr)))
           c 0 _ [] [] Hq).
Defined.

(** ** The writes of [FuncHandler] *)

(** C6, as stated, fails: the first write of [FuncHandler.__call__] is the
    flag (line 222), the value comes second (line 223). *)
Lemma FuncHandler_value_first_counterexample :
  FuncHandler_ops (Returns (PyInt 169))
  ≠ [SetReturn (PyInt 169); SetErrFlag false; BellSet].
Proof. discriminate. Qed.

Section WriteOrder.

Variable call : PyObj → list PyObj → list (string * PyObj) → World → World * Outcome.

(** C6, amended.  When [func()] returns a value or raises an
    [Exception], [FuncHandler.__call__] writes [err_flag] first, then the
    value or the exception, and sets the bell last; these writes are what
    the handler does to the cell; and after any number of them, on a cell
    whose bell was clear, the bell is set only if both the value and
    the flag have been written. *)
Theorem FuncHandler_write_order (b : bool) (r : PyObj) :
  let out : Outcome := if b then Raises r else Returns r in
  FuncHandler_ops out = [SetErrFlag b; SetReturn r; BellSet] ∧
  (∀ ev h l f s,
     data ev = FuncEventData h l f → snd (run call f (world s)) = out →
     cells (fst (FuncHandler_call call ev s))
     = alter (cell_ops (FuncHandler_ops out)) l (cells s)) ∧
  (∀ c k,
     bell c = false →
     bell (cell_ops (take k (FuncHandler_ops out)) c) = true →
     _value (cell_ops (take k (FuncHandler_ops out)) c) = r ∧
     err_flag (cell_ops (take k (FuncHandler_ops out)) c) = b).
Proof.
  split; [by destruct b|]. split.
  - intros ev h l f s Hd Hrun.
    rewrite (FuncHandler_call_fst call ev s h l f Hd), Hrun.
    by destruct b.
  - intros c k Hc.
    destruct (decide (k < 3)%nat) as [Hk|Hk].
    + destruct b; destruct k as [|[|[|k]]]; simpl; try congruence; lia.
    + rewrite take_ge by (destruct b; simpl; lia). by destruct b.
Qed.

End WriteOrder.

Lemma FuncHandler_write_order_witness :
  let ev := mkSmallEvent
              (FuncEventData FuncHandler 1%positive
                 (mkPartial Demo.Foo_square [PyInt 13] [])) Demo.root in
  let s := set_cells {[ 1%positive := new_ReturnCell ]} Demo.started in
  snd (run Demo.call (mkPartial Demo.Foo_square [PyInt 13] []) (world s))
    = Returns (PyInt 169) ∧
  cells (fst (FuncHandler_call Demo.call ev s))
    = alter (cell_ops (FuncHandler_ops (Returns (PyInt 169)))) 1%positive (cells s).
Proof.
  intros ev s.
  assert (snd (run Demo.call (mkPartial Demo.Foo_square [PyInt 13] []) (world s))
          = Returns (PyInt 169)) as Hrun by reflexivity.
  split; [exact Hrun|].
  exact (proj1 (proj2 (FuncHandler_write_order Demo.call false (PyInt 169)))
           ev FuncHandler 1%positive _ s eq_refl Hrun).
Defined.

(** ** Attribute resolution by a proxy *)

(** C8, as stated, fails: [getattr(obj, name)] runs when the attribute is
    read from the proxy.  A forwarder taken before [foo.square] is
    reassigned still calls the old method (9, where the new one gives 27),
    and reading a name the target lacks fails at once. *)
Lemma call_time_resolution_counterexample :
  ∃ fw,
    proxy_attr (proxy Demo.pb Demo.foo) "square" Demo.objects = Some (Returns fw) ∧
    let s := set_world (setattr Demo.foo "square" Demo.Foo_cube Demo.objects)
               Demo.started in
    getattr (world s) Demo.foo "square" = Some Demo.Foo_cube ∧
    snd (method Demo.call fw [PyInt 3] [] main_thread s) = Done (Returns (PyInt 9)) ∧
    snd (run Demo.call (mkPartial Demo.Foo_cube [PyInt 3] []) (world s))
      = Returns (PyInt 27) ∧
    proxy_attr (proxy Demo.pb Demo.foo) "missing" Demo.objects
      = Some (Raises (PyExc AttributeError)).
Proof.
  exists (mkForwarder (FuncGenerator FuncHandler) Demo.root Demo.Foo_square).
  repeat split; vm_compute; reflexivity.
Qed.

Section Resolution.

Variable call : PyObj → list PyObj → list (string * PyObj) → World → World * Outcome.

(** C8, amended.  A name that the normal lookup on the proxy misses is
    answered by [Proxy.__getattr__], which resolves it against the target
    at once, in the world of that moment, and afresh at each read; it
    fails at once when the target lacks the name.  The forwarder obtained
    keeps the attribute it found, whatever the target becomes before the
    call: called with no keyword named [func], and the attribute being
    callable, it calls the generator with that attribute.  So a method
    reassigned on the target is the one invoked by the next
    [proxy.name(...)] expression. *)
Theorem proxy_resolves_on_access (p : Proxy) (name : string) :
  (∀ w, forwarded name = true →
        proxy_attr p name w = Some (Proxy_getattr p name w)) ∧
  (∀ w fw,
     Proxy_getattr p name w = Returns fw →
     getattr w (px_obj p) name = Some (fw_func fw)) ∧
  (∀ w, getattr w (px_obj p) name = None →
        Proxy_getattr p name w = Raises (PyExc AttributeError)) ∧
  (∀ w fw args kwargs t s,
     Proxy_getattr p name w = Returns fw →
     "func" ∉ kwargs.*1 →
     callable (world s) (fw_func fw) = true →
     method call fw args kwargs t s =
     Generator_call call (px_generator p) t (px_widget p)
       (mkPartial (fw_func fw) args kwargs) s) ∧
  (∀ id f' args kwargs t s,
     px_obj p = PyRef id →
     forwarded name = true →
     "func" ∉ kwargs.*1 →
     let s' := set_world (setattr (PyRef id) name f' (world s)) s in
     callable (world s') f' = true →
     proxy_call call p name args kwargs t s' =
     Some (Generator_call call (px_generator p) t (px_widget p)
             (mkPartial f' args kwargs) s')).
Proof.
  split; [|split; [|split; [|split]]].
  - intros w Hn. unfold proxy_attr. by rewrite Hn.
  - intros w fw. unfold Proxy_getattr, _getattr.
    destruct (getattr w (px_obj p) name); by intros [= <-].
  - intros w Hg. unfold Proxy_getattr, _getattr. by rewrite Hg.
  - intros w fw args kwargs t s Hfw Hk Hc.
    rewrite method_forwards by done.
    unfold Proxy_getattr, _getattr in Hfw.
    destruct (getattr w (px_obj p) name); [|done]. by injection Hfw as <-.
  - intros id f' args kwargs t s Hobj Hn Hk s' Hc.
    unfold proxy_call, proxy_attr. rewrite Hn.
    unfold Proxy_getattr, _getattr. rewrite Hobj.
    assert (getattr (world s') (PyRef id) name = Some f') as ->.
    { unfold s'. simpl. by rewrite lookup_insert_eq. }
    f_equal. by rewrite method_forwards.
Qed.

End Resolution.

(** [foo.square] is reassigned, then [foo_proxy.square(3)] is evaluated
    by the main thread. *)
Lemma proxy_resolves_on_access_witness :
  let p := proxy Demo.pb Demo.foo in
  let s' := set_world (setattr (PyRef 10) "square" Demo.Foo_cube (world Demo.started))
              Demo.started in
  px_obj p = PyRef 10 ∧ forwarded "square" = true ∧
  callable (world s') Demo.Foo_cube = true ∧
  proxy_call Demo.call p "square" [PyInt 3] [] main_thread s' =
  Some (Generator_call Demo.call (px_generator p) main_thread (px_widget p)
          (mkPartial Demo.Foo_cube [PyInt 3] []) s').
Proof.
  intros p s'.
  assert (px_obj p = PyRef 10) as Hobj by reflexivity.
  assert (forwarded "square" = true) as Hn by reflexivity.
  assert (callable (world s') Demo.Foo_cube = true) as Hc by (vm_compute; reflexivity).
  assert ("func" ∉ (@nil (string * PyObj)).*1) as Hk by (simpl; apply not_elem_of_nil).
  split; [exact Hobj|]. split; [exact Hn|]. split; [exact Hc|].
  exact (proj2 (proj2 (proj2 (proj2 (proxy_resolves_on_access Demo.call p "square"))))
           10%positive Demo.Foo_cube [PyInt 3] [] main_thread Demo.started
           Hobj Hn Hk Hc).
Defined.

(** ** Mute proxies *)

(** C1, as stated, fails: [ProcHandler.__call__] has no [try]; the
    exception raised by [Spam.bad] leaves the handler and [handle_call],
    and reaches Tk's callback wrapper. *)
Lemma mute_exception_discarded_counterexample :
  let p := make_proxy (ProcGenerator ProcHandler) Demo.root Demo.spam in
  let fw := mkForwarder (ProcGenerator ProcHandler) Demo.root Demo.Spam_bad in
  mute_proxy Demo.truth_of Demo.pb Demo.spam PyNone Demo.started
    = (Demo.started, Returns p) ∧
  proxy_attr p "bad" Demo.objects = Some (Returns fw) ∧
  method Demo.call fw [] [] Demo.worker Demo.started
    = (event_generate Demo.root virtual_event
         (ProcEventData ProcHandler (mkPartial Demo.Spam_bad [] [])) Demo.started,
       Done (Returns PyNone)) ∧
  let s := fst (method Demo.call fw [] [] Demo.worker Demo.started) in
  snd (CallWrapper_call Demo.call Demo.call_event
         (mkCommand Demo.root HandleCall) "0" s) = Raises Demo.type_error.
Proof. repeat split; vm_compute; reflexivity. Qed.

Section Mute.

Variable call : PyObj → list PyObj → list (string * PyObj) → World → World * Outcome.
Variable truth_of : positive → World → World * Result bool.

(** [mute_proxy(obj)], with [exc_handler] left to its default [None]. *)
Lemma mute_proxy_None pb obj s :
  mute_proxy truth_of pb obj PyNone s
  = (set_world (world s) s,
     Returns (make_proxy (ProcGenerator ProcHandler) (_widget pb) obj)).
Proof. reflexivity. Qed.

(** [ProcHandler.__call__] lets every exception of the bound call through
    and leaves the module's state as it is. *)
Lemma ProcHandler_raises func wgt s out :
  snd (run call func (world s)) = out → (∀ v, out ≠ Returns v) →
  let r := handle_call call (mkSmallEvent (ProcEventData ProcHandler func) wgt) s in
  snd r = out ∧ core_eq s (fst r).
Proof.
  intros Hrun Hout r. unfold r, handle_call, Handler_call, ProcHandler_call, run_in.
  simpl. destruct (run call func (world s)) as [w' out0]. simpl in Hrun. subst out0.
  destruct out as [v|e|e]; [by destruct (Hout v)| |];
    (split; [done|apply core_eq_set_world]).
Qed.

(** C1, amended.  For a method read from a mute proxy built without an
    exception handler: building the proxy changes nothing; the call by
    any thread, with no keyword named [func] and a callable attribute,
    only schedules the bound call and returns [None] at once; when the
    main thread runs it and the method raises, whatever the exception,
    the exception leaves the handler (it is not caught there), and
    nothing of the module's state changes: no cell is written and no
    thread is woken, so neither a value nor the exception reaches the
    calling thread. *)
Theorem mute_call_semantics (pb : ProxyBuilder) (obj : PyObj) (s0 : State)
    (p : Proxy) (name : string) (w : World) (fw : Forwarder) (args : list PyObj)
    (kwargs : list (string * PyObj)) :
  snd (mute_proxy truth_of pb obj PyNone s0) = Returns p →
  Proxy_getattr p name w = Returns fw →
  let func := mkPartial (fw_func fw) args kwargs in
  core_eq s0 (fst (mute_proxy truth_of pb obj PyNone s0)) ∧
  world (fst (mute_proxy truth_of pb obj PyNone s0)) = world s0 ∧
  (∀ t s,
     "func" ∉ kwargs.*1 →
     callable (world s) (fw_func fw) = true →
     method call fw args kwargs t s =
     (event_generate (_widget pb) virtual_event (ProcEventData ProcHandler func) s,
      Done (Returns PyNone))) ∧
  (∀ s wgt out,
     snd (run call func (world s)) = out → (∀ v, out ≠ Returns v) →
     let r := handle_call call (mkSmallEvent (ProcEventData ProcHandler func) wgt) s in
     snd r = out ∧ core_eq s (fst r)).
Proof.
  rewrite mute_proxy_None. cbn [fst snd]. intros [= <-].
  unfold Proxy_getattr, _getattr. simpl.
  destruct (getattr w obj name) as [f|]; [|done]. intros [= <-]. simpl.
  split; [apply core_eq_set_world|]. split; [done|]. split.
  - intros t s Hk Hc. by rewrite method_forwards.
  - intros s wgt out Hrun Hout.
    by apply ProcHandler_raises.
Qed.

End Mute.

(** [pb.mute_proxy(Spam()).bad()]: the [TypeError] raised by [bad] leaves
    [handle_call]. *)
Lemma mute_call_semantics_witness :
  let p := make_proxy (ProcGenerator ProcHandler) Demo.root Demo.spam in
  let fw := mkForwarder (ProcGenerator ProcHandler) Demo.root Demo.Spam_bad in
  let ev := mkSmallEvent (ProcEventData ProcHandler (mkPartial Demo.Spam_bad [] []))
              Demo.root in
  snd (mute_proxy Demo.truth_of Demo.pb Demo.spam PyNone Demo.started) = Returns p ∧
  Proxy_getattr p "bad" Demo.objects = Returns fw ∧
  snd (run Demo.call (mkPartial Demo.Spam_bad [] []) (world Demo.started))
    = Raises Demo.type_error ∧
  snd (handle_call Demo.call ev Demo.started) = Raises Demo.type_error ∧
  core_eq Demo.started (fst (handle_call Demo.call ev Demo.started)).
Proof.
  intros p fw ev.
  assert (snd (mute_proxy Demo.truth_of Demo.pb Demo.spam PyNone Demo.started)
          = Returns p) as Hp by reflexivity.
  assert (Proxy_getattr p "bad" Demo.objects = Returns fw) as H by reflexivity.
  assert (snd (run Demo.call (mkPartial Demo.Spam_bad [] []) (world Demo.started))
          = Raises Demo.type_error) as Hrun by reflexivity.
  assert (∀ v, Raises Demo.type_error ≠ @Returns PyObj v) as Hout by discriminate.
  split; [exact Hp|]. split; [exact H|]. split; [exact Hrun|].
  exact (proj2 (proj2 (proj2
           (mute_call_semantics Demo.call Demo.truth_of Demo.pb Demo.spam Demo.started
              p "bad" Demo.objects fw [] [] Hp H)))
           Demo.started Demo.root (Raises Demo.type_error) Hrun Hout).
Defined.

(** ** Ordinary proxies *)


(** C4, as stated, fails: [FuncHandler.__call__] catches [Exception]
    only.  [tape.stop()] raises [KeyboardInterrupt] on the main thread;
    the exception leaves [handle_call], the cell of the calling thread is
    not written and the thread cannot wake up: nothing is raised in
    it. *)
Lemma base_exception_not_reraised_counterexample :
  let f := mkPartial Recorder.Tape_stop [] [] in
  let s := Recorder.calling_stop in
  let r := CallWrapper_call Recorder.call Recorder.call_event
             (mkCommand Recorder.root HandleCall) (str 0) s in
  method Recorder.call Recorder.stop_fw [] [] Recorder.worker Recorder.started
    = (s, Blocked 1%positive) ∧
  waiting s !! Recorder.worker = Some (1%positive, f) ∧
  snd (run Recorder.call f (world s)) = RaisesBase Recorder.keyboard_interrupt ∧
  snd r = RaisesBase Recorder.keyboard_interrupt ∧
  cells (fst r) !! 1%positive = cells s !! 1%positive ∧
  (bell <$> cells (fst r) !! 1%positive) = Some false ∧
  waiting (fst r) !! Recorder.worker = Some (1%positive, f) ∧
  exec Recorder.call Recorder.call_event (AWake Recorder.worker) (fst r) = None.
Proof. repeat split; vm_compute; reflexivity. Qed.

Section Ordinary.

Variable call : PyObj → list PyObj → list (string * PyObj) → World → World * Outcome.
Variable call_event : PyObj → SmallEvent → World → World * Outcome.

(** In a reachable state [return_cell()] gives the main thread no cell. *)
Lemma return_cell_main s :
  Inv call s → snd (return_cell main_thread s) = None.
Proof.
  intros HI. unfold return_cell.
  destruct (local s !! main_thread) as [[l|]|] eqn:Hloc; [|done|].
  - by destruct (inv_main call s HI l).
  - destruct (main_cell_set s) eqn:Hset; [|by rewrite bool_decide_true].
    apply (inv_main_set call s HI) in Hset. congruence.
Qed.

(** [FuncGenerator.__call__] on the main thread is [func()]. *)
Lemma FuncGenerator_call_main h wgt func s :
  Inv call s →
  let r := FuncGenerator_call call h main_thread wgt func s in
  snd r = Done (snd (run call func (world s))) ∧
  world (fst r) = fst (run call func (world s)) ∧
  datastream (fst r) = datastream s ∧ count (fst r) = count s ∧
  cells (fst r) = cells s ∧ tk_events (fst r) = tk_events s ∧
  waiting (fst r) = waiting s ∧ history (fst r) = history s.
Proof.
  intros Hr. simpl.
  pose proof (return_cell_main s Hr) as Hnone.
  unfold FuncGenerator_call, return_cell in *.
  destruct (local s !! main_thread) as [c|] eqn:Hloc.
  - simpl in Hnone. subst c. unfold run_in.
    by destruct (run call func (world s)).
  - destruct (main_cell_set s || negb (bool_decide (main_thread = main_thread)));
      [done|].
    unfold run_in. simpl. by destruct (run call func (world s)).
Qed.

(** C5.  In every reachable state, [FuncGenerator.__call__] run by the
    main thread ends at once with the outcome of [func()], run in place
    in the current world; the deque, the counter, the cells, Tk's event
    queue, the set of sleeping threads and the history are unchanged. *)
Theorem owner_thread_call_in_place h wgt func s :
  reachable call call_event s →
  let r := FuncGenerator_call call h main_thread wgt func s in
  snd r = Done (snd (run call func (world s))) ∧
  world (fst r) = fst (run call func (world s)) ∧
  datastream (fst r) = datastream s ∧ count (fst r) = count s ∧
  cells (fst r) = cells s ∧ tk_events (fst r) = tk_events s ∧
  waiting (fst r) = waiting s ∧ history (fst r) = history s.
Proof.
  intros Hr. apply FuncGenerator_call_main. by eapply reachable_Inv.
Qed.

(** C9.  In every reachable state: when a sleeping thread wakes up and
    leaves its call, the value field of its cell is [None] afterwards;
    and the cell of a thread holds [None] whenever the thread is not in
    a call or its bell is clear, so a later call with the same cell
    starts from [None]. *)
Theorem consumed_cell_is_None s :
  reachable call call_event s →
  (∀ t s',
     exec call call_event (AWake t) s = Some s' →
     ∃ l f c,
       waiting s !! t = Some (l, f) ∧ local s' !! t = Some (Some l) ∧
       waiting s' !! t = None ∧ cells s' !! l = Some c ∧ _value c = PyNone) ∧
  (∀ t l c,
     local s !! t = Some (Some l) → cells s !! l = Some c →
     waiting s !! t = None ∨ bell c = false → _value c = PyNone).
Proof.
  intros Hr. apply reachable_Inv in Hr. split.
  - intros t s' Hex. simpl in Hex.
    destruct (waiting s !! t) as [[l f]|] eqn:Hw; [|done].
    destruct (FuncGenerator_resume t l s) as [[s1 out]|] eqn:Hres; [|done].
    injection Hex as <-.
    apply FuncGenerator_resume_Some in Hres as (c & Hc & Hbell & Hout & ->).
    exists l, f, (cell_ops [SetReturn PyNone] c). simpl.
    rewrite lookup_delete_eq, lookup_alter_eq, Hc.
    repeat split; try done. by eapply inv_wait_local.
  - intros t l c Hloc Hc [Hidle|Hbell]; [by eapply inv_idle|].
    destruct (waiting s !! t) as [[l' f]|] eqn:Hw; [|by eapply inv_idle].
    pose proof (inv_wait_local call s Hr _ _ _ Hw) as Hloc'.
    rewrite Hloc in Hloc'. injection Hloc' as <-.
    by destruct (inv_pending call s Hr _ _ _ _ Hw Hc Hbell).
Qed.



(** Once Tk runs the [handle_call] command with the numeral of a pending
    call's index, the sleeping caller can wake up, and leaves with the
    outcome of the bound call run by the main thread. *)
Lemma handled_call_returns s t l f i q1 q2 wgt out :
  reachable call call_event s →
  waiting s !! t = Some (l, f) →
  datastream s = q1 ++ (i, FuncEventData FuncHandler l f) :: q2 →
  snd (run call f (world s)) = out → (∀ e, out ≠ RaisesBase e) →
  ∃ s1 s2,
    CallWrapper_call call call_event (mkCommand wgt HandleCall) (str i) s
      = (s1, Returns PyNone) ∧
    FuncGenerator_resume t l s1 = Some (s2, out) ∧
    exec call call_event (AWake t) s1 = Some s2 ∧
    history s2 = history s ++ [Executed l f (world s) out; Returned t l out].
Proof.
  intros Hr Hw Hq Hrun Hout. apply reachable_Inv in Hr.
  destruct (inv_queue call s Hr i FuncHandler l f) as (t' & c & _ & Hc & Hbell).
  { rewrite Hq. apply elem_of_app. right. left. }
  destruct (published_ops out c Hout) as [Hpub Hbell'].
  apply published_outcome in Hpub.
  unfold CallWrapper_call. cbn [cmd_widget cmd_func].
  rewrite Hq, substitute_found by (rewrite <-Hq; apply Hr).
  unfold call_bound, handle_call, Handler_call, FuncHandler_call, run_in. simpl.
  destruct (run call f (world s)) as [w' out0]. simpl in Hrun. subst out0.
  destruct out as [v|e|e]; [| |by destruct (Hout e)].
  - eexists _, _. split; [reflexivity|].
    unfold FuncGenerator_resume. simpl.
    rewrite lookup_alter_eq, Hc. simpl. rewrite Hw. simpl.
    rewrite lookup_alter_eq, Hc. simpl.
    split; [reflexivity|]. split; [reflexivity|]. simpl. by rewrite <-app_assoc.
  - eexists _, _. split; [reflexivity|].
    unfold FuncGenerator_resume. simpl.
    rewrite lookup_alter_eq, Hc. simpl. rewrite Hw. simpl.
    rewrite lookup_alter_eq, Hc. simpl.
    split; [reflexivity|]. split; [reflexivity|]. simpl. by rewrite <-app_assoc.
Qed.

(** When the bound call raises an exception that is not an [Exception],
    [FuncHandler] lets it through before the writes: the cell is as it
    was and the caller cannot wake up. *)
Lemma base_exception_unpublished s t l f i q1 q2 wgt e :
  reachable call call_event s →
  waiting s !! t = Some (l, f) →
  datastream s = q1 ++ (i, FuncEventData FuncHandler l f) :: q2 →
  snd (run call f (world s)) = RaisesBase e →
  let r := CallWrapper_call call call_event (mkCommand wgt HandleCall) (str i) s in
  snd r = RaisesBase e ∧ cells (fst r) = cells s ∧
  exec call call_event (AWake t) (fst r) = None.
Proof.
  intros Hr Hw Hq Hrun. apply reachable_Inv in Hr.
  destruct (inv_queue call s Hr i FuncHandler l f) as (t' & c & _ & Hc & Hbell).
  { rewrite Hq. apply elem_of_app. right. left. }
  unfold CallWrapper_call. cbn [cmd_widget cmd_func].
  rewrite Hq, substitute_found by (rewrite <-Hq; apply Hr).
  unfold call_bound, handle_call, Handler_call, FuncHandler_call, run_in. simpl.
  destruct (run call f (world s)) as [w' out0]. simpl in Hrun. subst out0.
  simpl. split; [done|]. split; [done|].
  rewrite Hw. simpl. unfold FuncGenerator_resume. simpl.
  by rewrite Hc, Hbell.
Qed.



(** C4, amended.  In every reachable state: (1) whenever a thread has
    left a call through an ordinary proxy by raising [e], the main
    thread's run of the bound call raised this very object [e], and a
    call that returned a value had a run that returned it: no outcome is
    turned into another; (2) for a sleeping thread whose call is in the
    deque, once Tk runs [handle_call] with the call's index, the thread
    wakes up and raises [e] if [f()] raised [e], an instance of
    [Exception], (3) and returns [v] without raising if [f()] returned
    [v]; (4) on the main thread the call is [func()] itself, exception
    included; (5) if [f()] raised [e] that is not an instance of
    [Exception], [e] leaves [handle_call], the cell is not written and
    the thread cannot wake up. *)
Theorem proxy_exception_propagation s :
  reachable call call_event s →
  (∀ h1 t l out h2,
     history s = h1 ++ Returned t l out :: h2 →
     ∃ p f w,
       filter (λ o, about l o = true) h1 = p ++ [Called t l f; Executed l f w out] ∧
       snd (run call f w) = out ∧
       match out with
       | Raises e => snd (run call f w) = Raises e
       | Returns v => snd (run call f w) = Returns v
       | RaisesBase _ => False
       end) ∧
  (∀ t l f i q1 q2 wgt e,
     waiting s !! t = Some (l, f) →
     datastream s = q1 ++ (i, FuncEventData FuncHandler l f) :: q2 →
     snd (run call f (world s)) = Raises e →
     ∃ s1 s2,
       CallWrapper_call call call_event (mkCommand wgt HandleCall) (str i) s
         = (s1, Returns PyNone) ∧
       (∃ c, cells s1 !! l = Some c ∧ _value c = e ∧ err_flag c = true) ∧
       FuncGenerator_resume t l s1 = Some (s2, Raises e)) ∧
  (∀ t l f i q1 q2 wgt v,
     waiting s !! t = Some (l, f) →
     datastream s = q1 ++ (i, FuncEventData FuncHandler l f) :: q2 →
     snd (run call f (world s)) = Returns v →
     ∃ s1 s2,
       CallWrapper_call call call_event (mkCommand wgt HandleCall) (str i) s
         = (s1, Returns PyNone) ∧
       (∃ c, cells s1 !! l = Some c ∧ _value c = v ∧ err_flag c = false) ∧
       FuncGenerator_resume t l s1 = Some (s2, Returns v)) ∧
  (∀ h wgt func,
     snd (FuncGenerator_call call h main_thread wgt func s)
     = Done (snd (run call func (world s)))) ∧
  (∀ t l f i q1 q2 wgt e,
     waiting s !! t = Some (l, f) →
     datastream s = q1 ++ (i, FuncEventData FuncHandler l f) :: q2 →
     snd (run call f (world s)) = RaisesBase e →
     let r := CallWrapper_call call call_event (mkCommand wgt HandleCall) (str i) s in
     snd r = RaisesBase e ∧ cells (fst r) = cells s ∧
     exec call call_event (AWake t) (fst r) = None).
Proof.
  intros Hr. split; [|split; [|split; [|split]]].
  - intros h1 t l out h2 Hh.
    pose proof (reachable_Inv call call_event s Hr) as HI.
    destruct (inv_history call s HI _ _ _ _ _ Hh) as (p & f & w & Hf & Hrun & Hb).
    exists p, f, w. split; [done|]. split; [done|].
    destruct out; [done|done|by destruct (Hb e)].
  - intros t l f i q1 q2 wgt e Hw Hq Hrun.
    destruct (handled_call_returns s t l f i q1 q2 wgt (Raises e) Hr Hw Hq Hrun)
      as (s1 & s2 & H1 & H2 & _); [done|].
    exists s1, s2. split; [done|]. split; [|done].
    apply FuncGenerator_resume_Some in H2 as (c & Hc & _ & Hout & _).
    exists c. split; [done|]. by destruct (err_flag c); simplify_eq.
  - intros t l f i q1 q2 wgt v Hw Hq Hrun.
    destruct (handled_call_returns s t l f i q1 q2 wgt (Returns v) Hr Hw Hq Hrun)
      as (s1 & s2 & H1 & H2 & _); [done|].
    exists s1, s2. split; [done|]. split; [|done].
    apply FuncGenerator_resume_Some in H2 as (c & Hc & _ & Hout & _).
    exists c. split; [done|]. by destruct (err_flag c); simplify_eq.
  - intros h wgt func.
    apply FuncGenerator_call_main. by eapply reachable_Inv.
  - intros t l f i q1 q2 wgt e Hw Hq Hrun.
    exact (base_exception_unpublished s t l f i q1 q2 wgt e Hr Hw Hq Hrun).
Qed.

End Ordinary.

Lemma calling_square_reachable :
  reachable Demo.call Demo.call_event Demo.calling_square.
Proof.
  by exists main_thread, Demo.objects,
    [AProxyBuilder main_thread Demo.root;
     ACall Demo.worker Demo.square_fw [PyInt 13] []].
Qed.

Lemma calling_boom_reachable :
  reachable Demo.call Demo.call_event Demo.calling_boom.
Proof.
  by exists main_thread, Demo.objects,
    [AProxyBuilder main_thread Demo.root; ACall Demo.worker Demo.boom_fw [] []].
Qed.

Lemma handled_square_reachable :
  reachable Demo.call Demo.call_event Demo.handled_square.
Proof.
  exists main_thread, Demo.objects,
    [AProxyBuilder main_thread Demo.root;
     ACall Demo.worker Demo.square_fw [PyInt 13] [];
     ADispatch [Demo.root]].
  vm_compute. reflexivity.
Qed.

(** [foo_proxy.square(5)] called by the main thread. *)
Lemma owner_thread_call_in_place_witness :
  let func := mkPartial Demo.Foo_square [PyInt 5] [] in
  let r := FuncGenerator_call Demo.call FuncHandler main_thread Demo.root func
             Demo.started in
  reachable Demo.call Demo.call_event Demo.started ∧
  snd r = Done (Returns (PyInt 25)) ∧ datastream (fst r) = [] ∧ count (fst r) = 0.
Proof.
  intros func r.
  pose proof (owner_thread_call_in_place Demo.call Demo.call_event FuncHandler
                Demo.root func Demo.started started_reachable)
    as (H1 & _ & H2 & H3 & _).
  split; [apply started_reachable|]. split; [exact H1|]. split; [exact H2|exact H3].
Defined.

(** The worker thread wakes up after [foo_proxy.square(13)] was handled. *)
Lemma consumed_cell_is_None_witness :
  let woken := fst <$> FuncGenerator_resume Demo.worker 1%positive Demo.handled_square in
  reachable Demo.call Demo.call_event Demo.handled_square ∧
  exec Demo.call Demo.call_event (AWake Demo.worker) Demo.handled_square = woken ∧
  ∃ s', woken = Some s' ∧
    ∃ l f c, waiting Demo.handled_square !! Demo.worker = Some (l, f) ∧
             local s' !! Demo.worker = Some (Some l) ∧
             waiting s' !! Demo.worker = None ∧
             cells s' !! l = Some c ∧ _value c = PyNone.
Proof.
  intros woken.
  assert (exec Demo.call Demo.call_event (AWake Demo.worker) Demo.handled_square = woken)
    as Hex by (vm_compute; reflexivity).
  split; [apply handled_square_reachable|]. split; [exact Hex|].
  destruct woken as [s'|] eqn:Hw; [|discriminate Hw].
  exists s'. split; [reflexivity|].
  exact (proj1 (consumed_cell_is_None Demo.call Demo.call_event Demo.handled_square
                  handled_square_reachable) Demo.worker s' Hex).
Defined.


(** The worker thread calls [foo_proxy.boom()] and gets the exception
    object raised on the main thread. *)
Lemma proxy_exception_propagation_witness :
  let f := mkPartial Demo.Foo_boom [] [] in
  reachable Demo.call Demo.call_event Demo.calling_boom ∧
  waiting Demo.calling_boom !! Demo.worker = Some (1%positive, f) ∧
  datastream Demo.calling_boom = [] ++ (0, FuncEventData FuncHandler 1%positive f) :: [] ∧
  snd (run Demo.call f (world Demo.calling_boom)) = Raises Demo.zero_division ∧
  ∃ s1 s2,
    CallWrapper_call Demo.call Demo.call_event (mkCommand Demo.root HandleCall)
      (str 0) Demo.calling_boom = (s1, Returns PyNone) ∧
    (∃ c, cells s1 !! 1%positive = Some c ∧ _value c = Demo.zero_division ∧
          err_flag c = true) ∧
    FuncGenerator_resume Demo.worker 1%positive s1
      = Some (s2, Raises Demo.zero_division).
Proof.
  intros f.
  assert (waiting Demo.calling_boom !! Demo.worker = Some (1%positive, f)) as Hw
    by (vm_compute; reflexivity).
  assert (datastream Demo.calling_boom
          = [] ++ (0, FuncEventData FuncHandler 1%positive f) :: []) as Hq
    by (vm_compute; reflexivity).
  assert (snd (run Demo.call f (world Demo.calling_boom)) = Raises Demo.zero_division)
    as Hrun by (vm_compute; reflexivity).
  split; [apply calling_boom_reachable|]. split; [exact Hw|].
  split; [exact Hq|]. split; [exact Hrun|].
  exact (proj1 (proj2 (proxy_exception_propagation Demo.call Demo.call_event
                         Demo.calling_boom calling_boom_reachable))
           Demo.worker 1%positive f 0 [] [] Demo.root Demo.zero_division Hw Hq Hrun).
Defined.

(** * Further properties *)

Section Frames.

Variable call : PyObj → list PyObj → list (string * PyObj) → World → World * Outcome.
Variable call_event : PyObj → SmallEvent → World → World * Outcome.

(** What the function bound to an event leaves alone. *)
Lemma call_bound_frame f ev s :
  let s' := fst (call_bound call call_event f ev s) in
  datastream s' = datastream s ∧ count s' = count s ∧ local s' = local s ∧
  main_cell_set s' = main_cell_set s ∧ tk_events s' = tk_events s ∧
  tk_bindings s' = tk_bindings s ∧ waiting s' = waiting s ∧
  (∀ l, cell_of (data ev) ≠ Some l → cells s' !! l = cells s !! l).
Proof.
  destruct f as [|g]; simpl.
  - rewrite handle_call_fst.
    destruct (data ev) as [o|h func|h l0 func] eqn:Hd; [done| |].
    + destruct h; simpl.
      * unfold ProcHandler_call, run_in. rewrite Hd.
        by destruct (run call func (world s)) as [w []].
      * unfold ProcExcHandler_call, run_in. rewrite Hd.
        destruct (run call func (world s)) as [w []]; try done.
        simpl. by destruct (call _exc_handler [e] [] w) as [w2 []].
      * unfold FuncHandler_call. by rewrite Hd.
    + destruct h; simpl.
      * unfold ProcHandler_call, run_in. rewrite Hd.
        by destruct (run call func (world s)) as [w []].
      * unfold ProcExcHandler_call, run_in. rewrite Hd.
        destruct (run call func (world s)) as [w []]; try done.
        simpl. by destruct (call _exc_handler [e] [] w) as [w2 []].
      * unfold FuncHandler_call, run_in. rewrite Hd.
        destruct (run call func (world s)) as [w []]; simpl;
          repeat split; try done;
          intros l Hl; rewrite lookup_alter_ne; congruence.
  - by destruct (call_event g ev (world s)) as [w out].
Qed.

End Frames.

(** ** More on the dequeue *)

Lemma sorted_after (i : Z) (d : Data) (q1 q2 : list (Z * Data)) :
  StronglySorted Z.lt (map fst (q1 ++ (i, d) :: q2)) →
  Forall (λ x, i < x.1) q2.
Proof.
  rewrite map_app. intros Hs. apply StronglySorted_app_1_r in Hs. simpl in Hs.
  apply StronglySorted_inv in Hs as [_ Hall].
  revert Hall. induction q2 as [|x q2 IH]; simpl; intros Hall; [constructor|].
  apply Forall_cons in Hall as [? ?]. constructor; [done|by apply IH].
Qed.

Lemma dequeue_expected_later (i : Z) (q : list (Z * Data)) :
  StronglySorted Z.lt (map fst q) →
  Forall (λ x, i < x.1) (fst (dequeue_expected i q)) ∧
  StronglySorted Z.lt (map fst (fst (dequeue_expected i q))).
Proof.
  intros Hs. destruct (dequeue_expected i q) as [q' r] eqn:Hd. simpl.
  apply dequeue_expected_spec in Hd
    as [(q1 & n & d & -> & Hq1 & Hn & _)|(-> & _ & _)].
  - split.
    + eapply Forall_impl; [by eapply sorted_after|]. simpl. lia.
    + rewrite map_app in Hs. apply StronglySorted_app_1_r in Hs.
      simpl in Hs. by apply StronglySorted_inv in Hs as [? _].
  - split; constructor.
Qed.

(** After [_substitute] ran for the index [i], whatever it returned, every
    entry left in a deque sorted by index has an index above [i]: what was
    skipped is gone for good, and so is the entry of [i] itself. *)
Theorem substitute_leaves_later (wgt : Widget) (i : Z) (q : list (Z * Data)) :
  StronglySorted Z.lt (map fst q) →
  Forall (λ x, i < x.1) (fst (_substitute wgt [str i] q)) ∧
  StronglySorted Z.lt (map fst (fst (_substitute wgt [str i] q))).
Proof.
  intros Hs. destruct (dequeue_expected_later i q Hs) as [H1 H2].
  unfold _substitute. rewrite int_str.
  destruct (dequeue_expected i q) as [q' r]. simpl in H1, H2.
  by destruct r.
Qed.

Lemma substitute_leaves_later_witness :
  let q := [(3, UserData PyNone); (5, UserData (PyInt 1)); (8, UserData (PyInt 2))] in
  StronglySorted Z.lt (map fst q) ∧
  Forall (λ x, 5 < x.1) (fst (_substitute "." [str 5] q)).
Proof.
  intros q.
  assert (StronglySorted Z.lt (map fst q)) as Hs.
  { repeat constructor. }
  split; [exact Hs|]. exact (proj1 (substitute_leaves_later "." 5 q Hs)).
Defined.

Section Duplicates.

Variable call : PyObj → list PyObj → list (string * PyObj) → World → World * Outcome.
Variable call_event : PyObj → SmallEvent → World → World * Outcome.

(** A command run on the entry of its index, in a sorted deque. *)
Lemma CallWrapper_call_found c i d q1 q2 s :
  StronglySorted Z.lt (map fst (datastream s)) →
  datastream s = q1 ++ (i, d) :: q2 →
  CallWrapper_call call call_event c (str i) s =
  call_bound call call_event (cmd_func c) (mkSmallEvent d (cmd_widget c))
    (set_datastream q2 s).
Proof.
  intros Hs Hq. unfold CallWrapper_call.
  rewrite Hq, substitute_found; [done|]. by rewrite <-Hq.
Qed.

(** When Tk runs two commands for one event (two scripts bound with
    [add], or two binding tags), the first takes the entry and the second
    never reaches its function: its [_substitute] fails, with [IndexError]
    on an empty deque, else with [AssertionError] after removing the next
    pending entry.  Nothing but the deque changes. *)
Theorem second_command_fails c1 c2 i d q1 q2 s :
  reachable call call_event s →
  datastream s = q1 ++ (i, d) :: q2 →
  let s1 := fst (CallWrapper_call call call_event c1 (str i) s) in
  datastream s1 = q2 ∧
  CallWrapper_call call call_event c2 (str i) s1 =
    (set_datastream (tail q2) s1,
     Raises (PyExc (match q2 with [] => IndexError | _ => AssertionError end))).
Proof.
  intros Hr Hq. apply reachable_Inv in Hr.
  pose proof (inv_sorted call s Hr) as Hs. simpl.
  rewrite (CallWrapper_call_found c1 i d q1 q2 s Hs Hq).
  destruct (call_bound_frame call call_event (cmd_func c1)
              (mkSmallEvent d (cmd_widget c1)) (set_datastream q2 s))
    as (Hd & _).
  simpl in Hd. split; [done|].
  unfold CallWrapper_call. rewrite Hd.
  destruct q2 as [|[n e] q2].
  - by rewrite substitute_empty.
  - rewrite substitute_head.
    rewrite Hq in Hs. apply sorted_after in Hs.
    apply Forall_cons in Hs as [Hn _]. simpl in Hn.
    destruct (Z.ltb_spec n i); [lia|]. destruct (Z.eqb_spec n i); [lia|]. done.
Qed.

End Duplicates.

Lemma second_command_fails_witness :
  let s := generate_all [(Demo.root, "<<test>>"%string, UserData (PyStr "a"));
                         (Demo.root, "<<test>>"%string, UserData (PyStr "b"))]
             Demo.started in
  let c := mkCommand Demo.root (UserFunc (PyRef 30)) in
  let s1 := fst (CallWrapper_call Demo.call Demo.call_event c (str 0) s) in
  reachable Demo.call Demo.call_event s ∧
  datastream s = [] ++ (0, UserData (PyStr "a")) :: [(1, UserData (PyStr "b"))] ∧
  CallWrapper_call Demo.call Demo.call_event c (str 0) s1 =
    (set_datastream [] s1, Raises (PyExc AssertionError)).
Proof.
  intros s c s1.
  assert (reachable Demo.call Demo.call_event s) as Hr.
  { exists main_thread, Demo.objects,
      [AProxyBuilder main_thread Demo.root;
       AEventGenerate Demo.worker Demo.root "<<test>>" (PyStr "a");
       AEventGenerate Demo.worker Demo.root "<<test>>" (PyStr "b")].
    vm_compute. reflexivity. }
  assert (datastream s
          = [] ++ (0, UserData (PyStr "a")) :: [(1, UserData (PyStr "b"))]) as Hq
    by (vm_compute; reflexivity).
  split; [exact Hr|]. split; [exact Hq|].
  exact (proj2 (second_command_fails Demo.call Demo.call_event c c 0 _ [] _ s Hr Hq)).
Defined.

(** ** Return cells of the threads *)

(** [return_cell()] called again by the same thread gives the same answer
    and changes nothing more: the cell is made once and cached. *)
Theorem return_cell_cached (t : thread) (s : State) :
  return_cell t (fst (return_cell t s)) = return_cell t s.
Proof.
  destruct (return_cell t s) as [s1 c] eqn:H. simpl. unfold return_cell in *.
  destruct (local s !! t) as [c0|] eqn:Hloc.
  - injection H as <- <-. by rewrite Hloc.
  - destruct (main_cell_set s || negb (bool_decide (t = main_thread)));
      injection H as <- <-; simpl; by rewrite lookup_insert_eq.
Qed.

Lemma return_cell_local_other (t t' : thread) (s : State) :
  t' ≠ t → local (fst (return_cell t s)) !! t' = local s !! t'.
Proof.
  intros Hne. unfold return_cell.
  destruct (local s !! t) as [c|]; [done|].
  destruct (main_cell_set s || negb (bool_decide (t = main_thread)));
    simpl; by rewrite lookup_insert_ne.
Qed.

Section Cells.

Variable call : PyObj → list PyObj → list (string * PyObj) → World → World * Outcome.
Variable call_event : PyObj → SmallEvent → World → World * Outcome.

(** In every reachable state [return_cell()] gives [None] to the main
    thread and to no other; two threads never get the same cell; and a
    cell handed out for the first time is a new object holding [None],
    with the flag down and the bell clear. *)
Theorem return_cell_per_thread (s : State) :
  reachable call call_event s →
  (∀ t, snd (return_cell t s) = None ↔ t = main_thread) ∧
  (∀ t1 t2 l,
     snd (return_cell t1 s) = Some l →
     snd (return_cell t2 (fst (return_cell t1 s))) = Some l → t1 = t2) ∧
  (∀ t l,
     local s !! t = None → snd (return_cell t s) = Some l →
     cells s !! l = None ∧
     cells (fst (return_cell t s)) !! l = Some new_ReturnCell).
Proof.
  intros Hr. apply reachable_Inv in Hr. split; [|split].
  - intros t. split.
    + intros Hnone.
      destruct (return_cell_spec call t s Hr) as (HI1 & Hloc & _).
      rewrite Hnone in Hloc. by eapply (inv_none_main call).
    + intros ->. by apply (return_cell_main call).
  - intros t1 t2 l H1 H2.
    destruct (return_cell_spec call t1 s Hr) as (HI1 & Hloc1 & _).
    destruct (return_cell_spec call t2 _ HI1) as (HI2 & Hloc2 & _).
    rewrite H1 in Hloc1. rewrite H2 in Hloc2.
    destruct (decide (t1 = t2)) as [|Hne]; [done|].
    eapply (inv_inj call _ HI2); [|done].
    by rewrite return_cell_local_other.
  - intros t l Hloc. unfold return_cell. rewrite Hloc.
    destruct (main_cell_set s || negb (bool_decide (t = main_thread)));
      simpl; [|done].
    intros [= <-]. rewrite lookup_insert_eq. split; [|done].
    apply not_elem_of_dom, is_fresh.
Qed.

(** The main thread is never asleep in a proxy call. *)
Lemma main_thread_awake s :
  Inv call s → waiting s !! main_thread = None.
Proof.
  intros HI. destruct (waiting s !! main_thread) as [[l f]|] eqn:Hw; [|done].
  apply (inv_wait_local call s HI) in Hw. by destruct (inv_main call s HI l).
Qed.

Lemma nodup_cells_unique q i j h h' l f f' :
  NoDup (queue_cells q) →
  (i, FuncEventData h l f) ∈ q → (j, FuncEventData h' l f') ∈ q → i = j.
Proof.
  induction q as [|x q IH]; intros Hnd Hi Hj; [by apply elem_of_nil in Hi|].
  apply elem_of_cons in Hi as [<-|Hi]; apply elem_of_cons in Hj as [Hj|Hj].
  - by injection Hj.
  - simpl in Hnd. apply NoDup_cons in Hnd as [Hn _].
    destruct Hn. by eapply elem_of_queue_cells.
  - subst x. simpl in Hnd. apply NoDup_cons in Hnd as [Hn _].
    destruct Hn. by eapply elem_of_queue_cells.
  - apply IH; [|done|done]. unfold queue_cells in *. simpl in Hnd.
    destruct (cell_of x.2); [by apply NoDup_cons in Hnd as [_ ?]|done].
Qed.

(** In every reachable state an entry of the deque scheduled by an
    ordinary proxy belongs to one sleeping thread, which is not the main
    thread, sleeps on the cell of the entry for the bound call of the
    entry, and cannot wake up while the entry is in the deque; and no
    other entry of the deque names that cell. *)
Theorem pending_call_has_sleeper (s : State) i h l f :
  reachable call call_event s →
  (i, FuncEventData h l f) ∈ datastream s →
  (∃ t, t ≠ main_thread ∧ waiting s !! t = Some (l, f) ∧
        local s !! t = Some (Some l) ∧
        exec call call_event (AWake t) s = None) ∧
  (∀ j h' f', (j, FuncEventData h' l f') ∈ datastream s → j = i).
Proof.
  intros Hr Hin. apply reachable_Inv in Hr. split.
  - destruct (inv_queue call s Hr _ _ _ _ Hin) as (t & c & Hw & Hc & Hb).
    exists t. split; [|split; [done|split]].
    + intros ->. by rewrite (main_thread_awake s Hr) in Hw.
    + by eapply (inv_wait_local call).
    + simpl. rewrite Hw. unfold FuncGenerator_resume. by rewrite Hc, Hb.
  - intros j h' f' Hj. symmetry.
    by eapply nodup_cells_unique; [apply (inv_nodup call s Hr)|..].
Qed.

(** The main thread never sleeps in a proxy call, in any reachable
    state, so it is always free to run Tk's main loop. *)
Theorem main_thread_never_sleeps (s : State) :
  reachable call call_event s →
  waiting s !! main_thread = None ∧
  ∀ t l f, waiting s !! t = Some (l, f) → t ≠ main_thread.
Proof.
  intros Hr. apply reachable_Inv in Hr.
  pose proof (main_thread_awake s Hr) as Hm. split; [done|].
  intros t l f Hw ->. congruence.
Qed.

End Cells.

Lemma return_cell_per_thread_witness :
  reachable Demo.call Demo.call_event Demo.started ∧
  (snd (return_cell Demo.worker Demo.started) = None ↔ Demo.worker = main_thread).
Proof.
  split; [apply started_reachable|].
  exact (proj1 (return_cell_per_thread Demo.call Demo.call_event Demo.started
                  started_reachable) Demo.worker).
Defined.

Lemma pending_call_has_sleeper_witness :
  let f := mkPartial Demo.Foo_square [PyInt 13] [] in
  reachable Demo.call Demo.call_event Demo.calling_square ∧
  (0, FuncEventData FuncHandler 1%positive f) ∈ datastream Demo.calling_square ∧
  ∃ t, t ≠ main_thread ∧ waiting Demo.calling_square !! t = Some (1%positive, f) ∧
       local Demo.calling_square !! t = Some (Some 1%positive) ∧
       exec Demo.call Demo.call_event (AWake t) Demo.calling_square = None.
Proof.
  intros f.
  assert ((0, FuncEventData FuncHandler 1%positive f)
          ∈ datastream Demo.calling_square) as Hin.
  { vm_compute. left. }
  split; [apply calling_square_reachable|]. split; [exact Hin|].
  exact (proj1 (pending_call_has_sleeper Demo.call Demo.call_event
                  Demo.calling_square 0 FuncHandler 1%positive f
                  calling_square_reachable Hin)).
Defined.

Lemma main_thread_never_sleeps_witness :
  reachable Demo.call Demo.call_event Demo.calling_square ∧
  waiting Demo.calling_square !! main_thread = None.
Proof.
  split; [apply calling_square_reachable|].
  exact (proj1 (main_thread_never_sleeps Demo.call Demo.call_event
                  Demo.calling_square calling_square_reachable)).
Defined.

(** ** Delivery in scheduling order *)

Lemma set_world_datastream_id (s : State) :
  set_world (world s) (set_datastream (datastream s) s) = s.
Proof. by destruct s. Qed.

Section Fifo.

Variable call : PyObj → list PyObj → list (string * PyObj) → World → World * Outcome.
Variable call_event : PyObj → SmallEvent → World → World * Outcome.

(** A command whose function only acts on the user's objects, run once
    for each entry of a sorted deque, in order: each entry is handled once,
    in order, and the deque is emptied. *)
Lemma deliver_in_order (c : Command) (step : Data → World → World)
    (es q1 : list (Z * Data)) (st : State) :
  Forall (λ x, ∀ st',
            fst (call_bound call call_event (cmd_func c)
                   (mkSmallEvent x.2 (cmd_widget c)) st')
            = set_world (step x.2 (world st')) st') es →
  StronglySorted Z.lt (map fst (datastream st)) →
  datastream st = q1 ++ es →
  deliver call call_event c (map (λ x, str x.1) es) st =
    set_world (foldl (λ w d, step d w) (world st) (map snd es))
      (set_datastream (match es with [] => datastream st | _ => [] end) st).
Proof.
  revert q1 st. induction es as [|[i d] es IH]; intros q1 st Hstep Hs Hq.
  - simpl. by rewrite set_world_datastream_id.
  - apply Forall_cons in Hstep as [Hd Hstep]. simpl in Hd.
    unfold deliver in *. simpl.
    rewrite (CallWrapper_call_found call call_event c i d q1 es st Hs Hq), Hd.
    rewrite (IH [] _ Hstep); simpl.
    + by destruct st, es.
    + rewrite Hq, map_app in Hs. apply StronglySorted_app_1_r in Hs.
      simpl in Hs. by apply StronglySorted_inv in Hs as [? _].
    + done.
Qed.

(** What [generate_all] appends, with the arguments Tk will pass. *)
Lemma generate_all_entries calls s :
  ∃ entries,
    datastream (generate_all calls s) = datastream s ++ entries ∧
    map snd entries = map snd calls ∧
    map ev_data (drop (length (tk_events s)) (tk_events (generate_all calls s)))
      = map (λ x, str x.1) entries ∧
    world (generate_all calls s) = world s ∧
    cells (generate_all calls s) = cells s ∧
    waiting (generate_all calls s) = waiting s ∧
    history (generate_all calls s) = history s.
Proof.
  revert s. induction calls as [|c calls IH]; intros s.
  - exists []. simpl. rewrite app_nil_r, drop_all. by repeat split.
  - rewrite generate_all_cons.
    destruct (IH (event_generate c.1.1 c.1.2 c.2 s))
      as (entries & Hd & Hs & Ha & Hw & Hc & Hwt & Hh).
    exists ((count s, c.2) :: entries).
    rewrite Hd, Hw, Hc, Hwt, Hh. simpl. rewrite <-app_assoc. simpl.
    repeat split; [by rewrite Hs|].
    pose proof (generate_all_spec calls (event_generate c.1.1 c.1.2 c.2 s))
      as (en & ev & _ & Ht & _).
    simpl in Ht, Ha. rewrite Ht in Ha |- *.
    rewrite <-app_assoc. simpl. rewrite drop_app_length.
    rewrite length_app in Ha. simpl in Ha.
    replace (length (tk_events s) + 1)%nat
      with (length (tk_events s ++ [mkTkEvent c.1.1 c.1.2 (str (count s))])) in Ha
      by (rewrite length_app; simpl; lia).
    rewrite drop_app_length in Ha. simpl. by rewrite Ha.
Qed.

(** Events generated in a reachable state and all delivered, in Tk's
    order, to one command bound to a function of the user: the function is
    called once per event, in the order of the [event_generate] calls,
    each time with the data of that call and the widget given to [bind];
    the deque ends empty and the cells, the sleeping threads and the
    history are untouched. *)
Theorem events_delivered_in_order (c : Command) (f : PyObj)
    (calls : list (Widget * string * Data)) (s : State) :
  reachable call call_event s →
  cmd_func c = UserFunc f → calls ≠ [] →
  let s1 := generate_all calls s in
  let args := map ev_data (drop (length (tk_events s)) (tk_events s1)) in
  let s2 := deliver call call_event c args s1 in
  world s2 = foldl (λ w d, fst (call_event f (mkSmallEvent d (cmd_widget c)) w))
               (world s) (map snd calls) ∧
  datastream s2 = [] ∧ cells s2 = cells s ∧ waiting s2 = waiting s ∧
  history s2 = history s.
Proof.
  intros Hr Hc Hne. apply reachable_Inv in Hr. simpl.
  destruct (generate_all_entries calls s)
    as (entries & Hd & Hs & Ha & Hw & Hce & Hwt & Hh).
  rewrite Ha.
  rewrite (deliver_in_order c
             (λ d w, fst (call_event f (mkSmallEvent d (cmd_widget c)) w))
             entries (datastream s)); [| | |done].
  - simpl. rewrite Hs, Hw, Hce, Hwt, Hh.
    destruct entries; [|done]. by destruct calls.
  - apply Forall_forall. intros x _ st'. rewrite Hc. simpl.
    by destruct (call_event f _ (world st')).
  - apply sorted_generate_all; apply Hr.
Qed.

(** The state after calls through forwarders of mute proxies is the one
    after as many [event_generate] calls. *)
Lemma call_all_mute
    (xs : list (thread * Forwarder * list PyObj * list (string * PyObj)))
    (w : World) (s : State) :
  world s = w →
  Forall (λ x, fw_generator x.1.1.2 = ProcGenerator ProcHandler ∧
               ("func" ∉ (x.2).*1) ∧ callable w (fw_func x.1.1.2) = true) xs →
  call_all call xs s =
  generate_all
    (map (λ x, (fw_widget x.1.1.2, virtual_event,
                ProcEventData ProcHandler (mkPartial (fw_func x.1.1.2) x.1.2 x.2)))
       xs) s.
Proof.
  revert s. induction xs as [|x xs IH]; intros s Hw Hall; [done|].
  apply Forall_cons in Hall as [(Hx & Hk & Hc) Hall].
  change (call_all call (x :: xs) s)
    with (call_all call xs (fst (method call x.1.1.2 x.1.2 x.2 x.1.1.1 s))).
  assert (method call x.1.1.2 x.1.2 x.2 x.1.1.1 s
          = (event_generate (fw_widget x.1.1.2) virtual_event
               (ProcEventData ProcHandler (mkPartial (fw_func x.1.1.2) x.1.2 x.2)) s,
             Done (Returns PyNone))) as ->.
  { rewrite method_forwards by (by rewrite ?Hw).
    unfold Generator_call. by rewrite Hx. }
  cbn [fst]. rewrite IH by done. cbn [map]. by rewrite generate_all_cons.
Qed.

(** Calls through mute proxies without exception handler, each with no
    keyword named [func] and a callable attribute, made in a reachable
    state by any threads and then all handled by the main thread in Tk's
    order: the bound calls run once each, in the order in which they were
    scheduled, whether they return or raise an [Exception]; no call ran
    before, the deque ends empty and no cell is touched. *)
Theorem mute_calls_run_in_order (wgt : Widget)
    (xs : list (thread * Forwarder * list PyObj * list (string * PyObj)))
    (s : State) :
  reachable call call_event s →
  Forall (λ x, fw_generator x.1.1.2 = ProcGenerator ProcHandler ∧
               ("func" ∉ (x.2).*1) ∧ callable (world s) (fw_func x.1.1.2) = true) xs →
  xs ≠ [] →
  let s1 := call_all call xs s in
  let args := map ev_data (drop (length (tk_events s)) (tk_events s1)) in
  let s2 := deliver call call_event (mkCommand wgt HandleCall) args s1 in
  world s1 = world s ∧
  world s2 = foldl (λ w x, fst (run call (mkPartial (fw_func x.1.1.2) x.1.2 x.2) w))
               (world s) xs ∧
  datastream s2 = [] ∧ cells s2 = cells s ∧ waiting s2 = waiting s.
Proof.
  intros Hr Hall Hne. apply reachable_Inv in Hr. simpl.
  rewrite (call_all_mute xs (world s) s eq_refl Hall).
  set (calls := map _ xs).
  destruct (generate_all_entries calls s)
    as (entries & Hd & Hs & Ha & Hw & Hce & Hwt & Hh).
  split; [done|]. rewrite Ha.
  rewrite (deliver_in_order (mkCommand wgt HandleCall)
             (λ d w, match d with
                     | ProcEventData _ func => fst (run call func w)
                     | _ => w
                     end)
             entries (datastream s)); [| | |done].
  - simpl. rewrite Hs, Hw, Hce, Hwt.
    split; [|by destruct entries; [destruct xs|]].
    unfold calls. rewrite map_map. simpl.
    clear. generalize (world s). induction xs as [|x xs IH]; intros w; [done|].
    simpl. apply IH.
  - apply Forall_forall. intros x Hx st'.
    assert (x.2 ∈ map snd entries) as Hx2.
    { apply list_elem_of_fmap. by exists x. }
    rewrite Hs in Hx2. unfold calls in Hx2. rewrite map_map in Hx2. simpl in Hx2.
    apply list_elem_of_fmap in Hx2 as (y & -> & _).
    simpl. unfold handle_call, Handler_call, ProcHandler_call, run_in. simpl.
    by destruct (run call _ (world st')) as [w []].
  - apply sorted_generate_all; apply Hr.
Qed.

End Fifo.

(** ** A call through an ordinary proxy, from the call to the return *)

(** What [return_cell()] leaves alone. *)
Lemma return_cell_frame (t : thread) (s : State) :
  let s' := fst (return_cell t s) in
  datastream s' = datastream s ∧ count s' = count s ∧
  tk_events s' = tk_events s ∧ tk_bindings s' = tk_bindings s ∧
  waiting s' = waiting s ∧ world s' = world s ∧ history s' = history s ∧
  (∀ l, is_Some (cells s !! l) → cells s' !! l = cells s !! l).
Proof.
  unfold return_cell. destruct (local s !! t); [done|].
  destruct (main_cell_set s || negb (bool_decide (t = main_thread))); [|done].
  simpl. repeat split. intros l [c Hc]. rewrite lookup_insert_ne; [done|].
  intros <-. pose proof (is_fresh (dom (cells s))) as Hf.
  apply not_elem_of_dom in Hf. congruence.
Qed.

Section RoundTrip.

Variable call : PyObj → list PyObj → list (string * PyObj) → World → World * Outcome.
Variable call_event : PyObj → SmallEvent → World → World * Outcome.

(** The state after a thread other than the main one entered
    [FuncGenerator.__call__]. *)
Lemma FuncGenerator_call_blocks h t wgt func s :
  Inv call s → t ≠ main_thread → waiting s !! t = None →
  ∃ l c,
    FuncGenerator_call call h t wgt func s =
      (observe (Called t l func)
         (set_waiting (<[t := (l, func)]> (waiting s))
            (event_generate wgt virtual_event (FuncEventData h l func)
               (write_cell l [BellClear] (fst (return_cell t s))))),
       Blocked l) ∧
    local (fst (return_cell t s)) !! t = Some (Some l) ∧
    cells (fst (return_cell t s)) !! l = Some c.
Proof.
  intros HI Ht Hidle. unfold FuncGenerator_call.
  destruct (return_cell_spec call t s HI) as (HI1 & Hloc & Hw & _).
  destruct (return_cell t s) as [s1 [l|]] eqn:Hrc; simpl in *.
  - destruct (inv_alloc call s1 HI1 _ _ Hloc) as [c Hc].
    exists l, c. by rewrite Hw.
  - destruct Ht. by eapply (inv_none_main call s1).
Qed.

(** The handling of a pending call and the wake-up of its caller, with
    the states they produce. *)
Lemma handle_then_wake s t l f i q1 q2 wgt :
  Inv call s →
  waiting s !! t = Some (l, f) →
  datastream s = q1 ++ (i, FuncEventData FuncHandler l f) :: q2 →
  (∀ e, snd (run call f (world s)) ≠ RaisesBase e) →
  let out := snd (run call f (world s)) in
  let s1 := observe (Executed l f (world s) out)
              (write_cell l (FuncHandler_ops out)
                 (set_world (fst (run call f (world s))) (set_datastream q2 s))) in
  let s2 := observe (Returned t l out)
              (set_waiting (delete t (waiting s))
                 (write_cell l [SetReturn PyNone] s1)) in
  CallWrapper_call call call_event (mkCommand wgt HandleCall) (str i) s
    = (s1, Returns PyNone) ∧
  FuncGenerator_resume t l s1 = Some (s2, out) ∧
  exec call call_event (AWake t) s1 = Some s2.
Proof.
  intros HI Hw Hq Hout.
  destruct (inv_queue call s HI i FuncHandler l f) as (t' & c & _ & Hc & Hbell).
  { rewrite Hq. apply elem_of_app. right. left. }
  rewrite (CallWrapper_call_found call call_event _ i _ q1 q2 s (inv_sorted call s HI) Hq).
  unfold call_bound, handle_call, Handler_call, FuncHandler_call, run_in. simpl.
  destruct (run call f (world s)) as [w' out] eqn:Hrun. simpl in *.
  destruct out as [v|e|e]; [| |by destruct (Hout e)].
  - split; [reflexivity|]. unfold FuncGenerator_resume. simpl.
    rewrite lookup_alter_eq, Hc. simpl. rewrite Hw. simpl.
    by rewrite lookup_alter_eq, Hc.
  - split; [reflexivity|]. unfold FuncGenerator_resume. simpl.
    rewrite lookup_alter_eq, Hc. simpl. rewrite Hw. simpl.
    by rewrite lookup_alter_eq, Hc.
Qed.

(** A whole call.  In a reachable state where Tk's queue is empty and
    the builder's widget has the binding made by [ProxyBuilder], a thread
    other than the main one reads a callable attribute from an ordinary
    proxy and calls it with no keyword named [func]; the main loop takes
    one event; the thread wakes up.  The three steps succeed, the bound
    call ran exactly once, on the main thread and in the world of the
    call, and the thread gets its outcome (a value or an [Exception]);
    afterwards the deque and Tk's queue are empty, the thread is awake,
    and its cell holds [None]. *)
Theorem proxy_call_completes pb obj name fw args kwargs t s :
  reachable call call_event s →
  tk_events s = [] →
  tk_bindings s !! (_widget pb, virtual_event)
    = Some [mkCommand (_widget pb) HandleCall] →
  t ≠ main_thread → waiting s !! t = None →
  proxy_attr (proxy pb obj) name (world s) = Some (Returns fw) →
  "func" ∉ kwargs.*1 →
  callable (world s) (fw_func fw) = true →
  let func := mkPartial (fw_func fw) args kwargs in
  let out := snd (run call func (world s)) in
  (∀ e, out ≠ RaisesBase e) →
  ∃ l s',
    execs call call_event
      [ACall t fw args kwargs; ADispatch [_widget pb]; AWake t] s = Some s' ∧
    getattr (world s) obj name = Some (fw_func fw) ∧
    history s' = history s ++
      [Called t l func; Executed l func (world s) out; Returned t l out] ∧
    world s' = fst (run call func (world s)) ∧
    datastream s' = [] ∧ tk_events s' = [] ∧ waiting s' = waiting s ∧
    local s' !! t = Some (Some l) ∧
    ∃ c, cells s' !! l = Some c ∧ _value c = PyNone.
Proof.
  intros Hr Htk Hbind Ht Hidle Hget Hk Hcall0 func out Hout.
  apply reachable_Inv in Hr.
  unfold proxy_attr in Hget. destruct (forwarded name); [|done].
  injection Hget as Hget.
  unfold Proxy_getattr, _getattr, proxy in Hget. simpl in Hget.
  destruct (getattr (world s) obj name) as [m|] eqn:Hm; [|done].
  injection Hget as <-. simpl in func, Hcall0.
  destruct (FuncGenerator_call_blocks FuncHandler t (_widget pb) func s Hr Ht Hidle)
    as (l & c & Hcall & Hloc & Hc).
  destruct (return_cell_frame t s) as (Hd0 & Hc0 & Htk0 & Hb0 & Hw0 & Hwo0 & Hh0 & _).
  pose proof (Inv_FuncGenerator_call call FuncHandler t (_widget pb) func s Hr Hidle)
    as HI1.
  rewrite Hcall in HI1. simpl in HI1.
  set (s1 := observe _ _) in *.
  exists l. unfold execs, exec, awake.
  rewrite bool_decide_true by done. rewrite method_forwards by done.
  unfold Generator_call. simpl fw_generator. cbn [fw_widget fw_func]. fold func.
  rewrite Hcall. cbn [fst]. fold s1.
  unfold dispatch.
  assert (tk_events s1 = [mkTkEvent (_widget pb) virtual_event (str (count s))]) as E1.
  { unfold s1. simpl. by rewrite Htk0, Htk, Hc0. }
  rewrite E1. cbn [ev_sequence ev_data map concat].
  assert (tk_bindings s1 = tk_bindings s) as E2 by (unfold s1; simpl; done).
  rewrite E2, Hbind. cbn [default app run_script].
  set (s1' := set_tk_events [] s1).
  assert (Inv call s1') as HI1'.
  { eapply Inv_core_eq; [apply core_eq_set_tk_events|done]. }
  assert (waiting s1' !! t = Some (l, func)) as Hw1.
  { unfold s1', s1. simpl. by rewrite lookup_insert_eq. }
  assert (datastream s1' = datastream s ++ (count s, FuncEventData FuncHandler l func) :: [])
    as Hq1.
  { unfold s1', s1. simpl. by rewrite Hd0, Hc0. }
  assert (world s1' = world s) as Hwo1 by (unfold s1', s1; simpl; done).
  assert (∀ e, snd (run call func (world s1')) ≠ RaisesBase e) as Hout1
    by (by rewrite Hwo1).
  destruct (handle_then_wake s1' t l func (count s) (datastream s) [] (_widget pb)
              HI1' Hw1 Hq1 Hout1) as (H1 & H2 & H3).
  match type of H1 with _ = (?x, _) => set (S1 := x) in * end.
  assert (run_script call call_event
            (id [mkCommand (_widget pb) HandleCall] ++ []) (str (count s)) s1' = S1)
    as Hrs.
  { simpl. by rewrite H1. }
  rewrite Hrs. cbn [exec] in H3. rewrite H3.
  eexists. split; [reflexivity|]. split; [done|].
  unfold S1. rewrite Hwo1. unfold s1', s1. simpl.
  rewrite Hh0, <-!app_assoc. simpl.
  rewrite delete_insert_eq, delete_id by done.
  rewrite !lookup_alter_eq, Hc. simpl.
  repeat split; try done.
  eexists. split; [reflexivity|]. by destruct (snd (run call func (world s))).
Qed.

End RoundTrip.

(** ** Calls that never return *)

Lemma queue_cells_app (q1 q2 : list (Z * Data)) :
  queue_cells (q1 ++ q2) = queue_cells q1 ++ queue_cells q2.
Proof. apply omap_app. Qed.

Section Lost.

Variable call : PyObj → list PyObj → list (string * PyObj) → World → World * Outcome.
Variable call_event : PyObj → SmallEvent → World → World * Outcome.

Lemma lost_asleep t l f s :
  lost t l f s → exec call call_event (AWake t) s = None.
Proof.
  intros (Hw & (c & Hc & Hb) & _). simpl. rewrite Hw.
  unfold FuncGenerator_resume. by rewrite Hc, Hb.
Qed.

Lemma lost_event_generate t l f wgt seq d s :
  cell_of d ≠ Some l → lost t l f s → lost t l f (event_generate wgt seq d s).
Proof.
  intros Hd (Hw & Hc & Hq). split; [done|]. split; [done|]. simpl.
  rewrite queue_cells_app. intros Hin. apply elem_of_app in Hin as [Hin|Hin]; [done|].
  unfold queue_cells in Hin. simpl in Hin.
  destruct (cell_of d) as [l'|]; [|by apply elem_of_nil in Hin].
  apply list_elem_of_singleton in Hin. congruence.
Qed.

Lemma lost_CallWrapper_call t l f c a s :
  lost t l f s → lost t l f (fst (CallWrapper_call call call_event c a s)).
Proof.
  intros (Hw & (cl & Hc & Hb) & Hq). unfold CallWrapper_call.
  destruct (_substitute (cmd_widget c) [a] (datastream s)) as [q r] eqn:Hsub.
  apply substitute_spec in Hsub. destruct r as [ev|e|e].
  - destruct Hsub as (_ & i & q1 & _ & Hd & _).
    rewrite Hd, queue_cells_app in Hq.
    assert (cell_of (data ev) ≠ Some l ∧ l ∉ queue_cells q) as [Hev Hq'].
    { split.
      - intros Hev. apply Hq, elem_of_app. right.
        unfold queue_cells. simpl. rewrite Hev. left.
      - intros Hin. apply Hq, elem_of_app. right.
        unfold queue_cells in *. simpl. destruct (cell_of (data ev)); [by right|done]. }
    destruct (call_bound_frame call call_event (cmd_func c) ev (set_datastream q s))
      as (Hd' & _ & _ & _ & _ & _ & Hw' & Hc').
    split; [by rewrite Hw'|]. split.
    + exists cl. by rewrite Hc'.
    + by rewrite Hd'.
  - destruct Hsub as [q1 Hd]. rewrite Hd, queue_cells_app in Hq.
    repeat split; [done|by exists cl|]. simpl.
    intros Hin. apply Hq, elem_of_app. by right.
  - destruct Hsub as [q1 Hd]. rewrite Hd, queue_cells_app in Hq.
    repeat split; [done|by exists cl|]. simpl.
    intros Hin. apply Hq, elem_of_app. by right.
Qed.

Lemma lost_run_script t l f cs a s :
  lost t l f s → lost t l f (run_script call call_event cs a s).
Proof.
  revert s. induction cs as [|c cs IH]; intros s Hl; simpl; [done|].
  pose proof (lost_CallWrapper_call t l f c a s Hl) as H1.
  destruct (CallWrapper_call call call_event c a s) as [s1 out]. simpl in H1.
  destruct out as [v|e|e]; try by apply IH.
  destruct v; try by apply IH.
  repeat (case_match; try by apply IH). done.
Qed.

(** A lost call stays lost whatever any thread does next. *)
Lemma lost_exec t l f a s s' :
  Inv call s → lost t l f s → exec call call_event a s = Some s' → lost t l f s'.
Proof.
  intros HI Hl. pose proof Hl as (Hw & (cl & Hc & Hb) & Hq).
  destruct a; simpl; unfold awake.
  - case_bool_decide; [|done]. intros [= <-]. by apply lost_event_generate.
  - case_bool_decide; [|done]. by intros [= <-].
  - case_bool_decide; [|done]. by intros [= <-].
  - case_bool_decide as Hidle; [|done]. intros [= <-].
    destruct (method_cases call fw args kwargs t0 s) as [-> | ->]; [|done].
    unfold Generator_call. destruct (fw_generator fw).
    + by apply lost_event_generate.
    + unfold FuncGenerator_call.
      destruct (return_cell_spec call t0 s HI) as (HI1 & Hloc & Hw1 & Hd1 & _).
      destruct (return_cell_frame t0 s) as (_ & _ & _ & _ & _ & _ & _ & Hc1).
      assert (t0 ≠ t) as Hne by congruence.
      destruct (return_cell t0 s) as [s1 [l0|]] eqn:Hrc; simpl in *.
      * assert (l0 ≠ l) as Hl0.
        { intros ->. apply Hne. eapply (inv_inj call s1 HI1); [done|].
          replace s1 with (fst (return_cell t0 s)) by (by rewrite Hrc).
          rewrite return_cell_local_other by done.
          by eapply (inv_wait_local call). }
        unfold lost. simpl.
        split; [by rewrite lookup_insert_ne, Hw1|]. split.
        -- exists cl. rewrite lookup_alter_ne by done. rewrite Hc1; [done|by exists cl].
        -- rewrite Hd1, queue_cells_app. intros Hin.
           apply elem_of_app in Hin as [Hin|Hin]; [done|].
           apply list_elem_of_singleton in Hin. congruence.
      * pose proof (core_eq_run_in call (mkPartial (fw_func fw) args kwargs) s1)
          as (E1 & _ & _ & _ & E2 & E3 & _).
        destruct (run_in call _ s1) as [s2 out]. unfold lost. simpl in *.
        split; [by rewrite <-E3, Hw1|]. split.
        -- exists cl. rewrite <-E2. rewrite Hc1; [done|by exists cl].
        -- by rewrite <-E1, Hd1.
  - destruct (waiting s !! t0) as [[l0 f0]|] eqn:Hw0; [|done].
    destruct (FuncGenerator_resume t0 l0 s) as [[s1 out]|] eqn:Hres; [|done].
    intros [= <-].
    apply FuncGenerator_resume_Some in Hres as (c0 & Hc0 & Hb0 & _ & ->).
    assert (l0 ≠ l) as Hl0 by (intros ->; congruence).
    assert (t0 ≠ t) as Hne by (intros ->; congruence).
    unfold lost. simpl.
    split; [by rewrite lookup_delete_ne|]. split; [|done].
    exists cl. by rewrite lookup_alter_ne.
  - unfold dispatch. destruct (tk_events s) as [|e es]; [done|].
    intros [= <-]. by apply lost_run_script.
  - case_bool_decide; [|done]. by intros [= <-].
Qed.

Lemma lost_execs t l f acts s s' :
  Inv call s → lost t l f s → execs call call_event acts s = Some s' →
  lost t l f s'.
Proof.
  revert s. induction acts as [|a acts IH]; intros s HI Hl; simpl.
  - by intros [= <-].
  - destruct (exec call call_event a s) as [s1|] eqn:Hex; [|done].
    apply IH; [by eapply Inv_exec|by eapply lost_exec].
Qed.

(** When the bound call of an ordinary proxy raises an exception that is
    not an [Exception] ([KeyboardInterrupt], [SystemExit]...), the handler
    lets it through to Tk without writing the cell, and the calling thread
    never wakes up, whatever the threads do afterwards. *)
Theorem base_exception_blocks_caller s t l f i q1 q2 wgt e :
  reachable call call_event s →
  waiting s !! t = Some (l, f) →
  datastream s = q1 ++ (i, FuncEventData FuncHandler l f) :: q2 →
  snd (run call f (world s)) = RaisesBase e →
  let r := CallWrapper_call call call_event (mkCommand wgt HandleCall) (str i) s in
  snd r = RaisesBase e ∧ cells (fst r) = cells s ∧
  ∀ acts s',
    execs call call_event acts (fst r) = Some s' →
    waiting s' !! t = Some (l, f) ∧ exec call call_event (AWake t) s' = None.
Proof.
  intros Hr Hw Hq Hrun. apply reachable_Inv in Hr.
  pose proof (Inv_CallWrapper_call call call_event (mkCommand wgt HandleCall)
                (str i) s Hr) as HI1.
  destruct (inv_queue call s Hr i FuncHandler l f) as (t' & c & _ & Hc & Hbell).
  { rewrite Hq. apply elem_of_app. right. left. }
  assert (l ∉ queue_cells q2) as Hl.
  { pose proof (inv_nodup call s Hr) as Hnd.
    rewrite Hq, queue_cells_app in Hnd. simpl in Hnd.
    apply NoDup_app in Hnd as (_ & _ & Hnd).
    by apply NoDup_cons in Hnd as [? _]. }
  simpl in *.
  rewrite (CallWrapper_call_found call call_event _ i _ q1 q2 s
             (inv_sorted call s Hr) Hq) in HI1 |- *.
  unfold call_bound, handle_call, Handler_call, FuncHandler_call, run_in in HI1 |- *.
  simpl in HI1 |- *.
  destruct (run call f (world s)) as [w' out]. simpl in Hrun. subst out.
  simpl in HI1 |- *. split; [done|]. split; [done|].
  intros acts s' Hex.
  assert (lost t l f (set_world w' (set_datastream q2 s))) as Hlost.
  { split; [done|]. split; [by exists c|done]. }
  pose proof (lost_execs t l f acts _ s' HI1 Hlost Hex) as Hl'.
  split; [apply Hl'|by eapply lost_asleep].
Qed.

(** When Tk delivers the event of a later index while the call of a
    sleeping thread is still in the deque, the entry of that call is
    discarded by the loop of [_substitute], and the thread never wakes up,
    whatever the threads do afterwards. *)
Theorem skipped_call_never_returns s t l f h i j c :
  reachable call call_event s →
  waiting s !! t = Some (l, f) →
  (i, FuncEventData h l f) ∈ datastream s → i < j →
  ∀ acts s',
    execs call call_event acts (fst (CallWrapper_call call call_event c (str j) s))
      = Some s' →
    waiting s' !! t = Some (l, f) ∧ exec call call_event (AWake t) s' = None.
Proof.
  intros Hr Hw Hin Hij acts s' Hex. apply reachable_Inv in Hr.
  pose proof (Inv_CallWrapper_call call call_event c (str j) s Hr) as HI1.
  destruct (inv_queue call s Hr _ _ _ _ Hin) as (t' & cl & _ & Hc & Hbell).
  pose proof (inv_nodup call s Hr) as Hnd.
  pose proof (inv_sorted call s Hr) as Hs.
  assert (lost t l f (fst (CallWrapper_call call call_event c (str j) s))) as Hlost.
  { unfold CallWrapper_call.
    assert (Forall (λ x, j < x.1)
              (fst (_substitute (cmd_widget c) [str j] (datastream s)))) as Hlater.
    { destruct (dequeue_expected_later j (datastream s) Hs) as [H1 _].
      unfold _substitute. rewrite int_str.
      destruct (dequeue_expected j (datastream s)) as [q' r']. simpl in H1.
      by destruct r'. }
    destruct (_substitute (cmd_widget c) [str j] (datastream s)) as [q r] eqn:Hsub.
    simpl in Hlater.
    assert (l ∉ queue_cells q) as Hq.
    { intros Hl. apply queue_cells_elem_of in Hl as (k & h' & f' & Hk).
      assert (k = i) as ->.
      { apply substitute_spec in Hsub.
        assert (∃ q0, datastream s = q0 ++ q) as [q0 Hd].
        { destruct r as [ev|e|e]; [|done|done].
          destruct Hsub as (_ & i0 & q1 & _ & Hd & _).
          exists (q1 ++ [(i0, data ev)]). by rewrite <-app_assoc. }
        eapply nodup_cells_unique; [done| |done].
        rewrite Hd. apply elem_of_app. by right. }
      rewrite Forall_forall in Hlater. apply Hlater in Hk. simpl in Hk. lia. }
    apply substitute_spec in Hsub. destruct r as [ev|e|e]; simpl.
    - destruct Hsub as (_ & i0 & q1 & Hint & Hd & _).
      rewrite int_str in Hint. injection Hint as <-.
      assert (cell_of (data ev) ≠ Some l) as Hev.
      { intros Hev. destruct (data ev) as [| |h' l' f'] eqn:Hdata; try done.
        injection Hev as ->.
        assert (j = i); [|lia].
        eapply nodup_cells_unique; [done| |done].
        rewrite Hd. apply elem_of_app. right. left. }
      destruct (call_bound_frame call call_event (cmd_func c) ev (set_datastream q s))
        as (Hd' & _ & _ & _ & _ & _ & Hw' & Hc').
      split; [by rewrite Hw'|]. split.
      + exists cl. by rewrite Hc'.
      + by rewrite Hd'.
    - by repeat split; [|exists cl|].
    - by repeat split; [|exists cl|]. }
  pose proof (lost_execs t l f acts _ s' HI1 Hlost Hex) as Hl'.
  split; [apply Hl'|by eapply lost_asleep].
Qed.

End Lost.

(** ** The exception handler of a mute proxy *)

Section ExcHandler.

Variable call : PyObj → list PyObj → list (string * PyObj) → World → World * Outcome.
Variable call_event : PyObj → SmallEvent → World → World * Outcome.
Variable truth_of : positive → World → World * Result bool.

(** [mute_proxy(obj, h)] keeps the handler [h] when [bool(h)] is true
    and drops it when [bool(h)] is false.  For a method read from a mute
    proxy built with a handler [h] that is true, and called in a
    reachable state by any thread, with no keyword named [func] and the
    attribute being callable: the call only schedules and returns [None];
    when the main thread handles it, the bound call runs, and [h] is
    called, once, with the exception and in the world the call left,
    exactly when the call raised an [Exception].  What [h] returns is
    dropped, what it raises leaves the handler; an exception that is not
    an [Exception] leaves the handler without [h] being called.  No cell
    is touched. *)
Theorem exception_handler_invoked (pb : ProxyBuilder) (obj h : PyObj) (s0 : State) :
  (snd (truth truth_of h (world s0)) = Returns false →
   snd (mute_proxy truth_of pb obj h s0)
   = Returns (make_proxy (ProcGenerator ProcHandler) (_widget pb) obj)) ∧
  (∀ (p : Proxy) (name : string) (w : World) (fw : Forwarder) (args : list PyObj)
     (kwargs : list (string * PyObj)) (t : thread) (wgt : Widget) (s : State),
     reachable call call_event s →
     snd (truth truth_of h (world s0)) = Returns true →
     snd (mute_proxy truth_of pb obj h s0) = Returns p →
     Proxy_getattr p name w = Returns fw →
     "func" ∉ kwargs.*1 →
     callable (world s) (fw_func fw) = true →
     let func := mkPartial (fw_func fw) args kwargs in
     let s1 := fst (method call fw args kwargs t s) in
     let r := CallWrapper_call call call_event (mkCommand wgt HandleCall)
                (str (count s)) s1 in
     let w1 := fst (run call func (world s)) in
     snd (method call fw args kwargs t s) = Done (Returns PyNone) ∧
     world s1 = world s ∧
     cells (fst r) = cells s ∧ waiting (fst r) = waiting s ∧ datastream (fst r) = [] ∧
     match snd (run call func (world s)) with
     | Returns _ => world (fst r) = w1 ∧ snd r = Returns PyNone
     | Raises e =>
         world (fst r) = fst (call h [e] [] w1) ∧
         snd r = match snd (call h [e] [] w1) with
                 | Returns _ => Returns PyNone
                 | o => o
                 end
     | RaisesBase e => world (fst r) = w1 ∧ snd r = RaisesBase e
     end).
Proof.
  split.
  { unfold mute_proxy. destruct (truth truth_of h (world s0)) as [w0 out].
    simpl. by intros ->. }
  intros p name w fw args kwargs t wgt s Hr Hh Hp Hget Hk Hcall.
  apply reachable_Inv in Hr.
  unfold mute_proxy in Hp. destruct (truth truth_of h (world s0)) as [w0 out].
  simpl in Hh. subst out. simpl in Hp. injection Hp as <-.
  unfold Proxy_getattr, _getattr in Hget.
  simpl in Hget. destruct (getattr w obj name) as [m|]; [|done].
  injection Hget as <-. simpl. simpl in Hcall.
  rewrite method_forwards by done.
  unfold Generator_call, ProcGenerator_call. simpl.
  split; [done|]. split; [done|].
  set (func := mkPartial m args kwargs).
  set (s1 := event_generate _ _ _ s).
  destruct (sorted_event_generate (_widget pb) virtual_event
              (ProcEventData (ProcExcHandler h) func) s) as [Hs _];
    [apply Hr|apply Hr|].
  rewrite (CallWrapper_call_found call call_event _ (count s)
             (ProcEventData (ProcExcHandler h) func) (datastream s) [] s1 Hs eq_refl).
  unfold call_bound, handle_call, Handler_call, ProcExcHandler_call, run_in. simpl.
  destruct (run call func (world s)) as [w1 [v|e|e]]; simpl; [done| |done].
  by destruct (call h [e] [] w1) as [w2 []].
Qed.

End ExcHandler.

(** ** Indices *)

Section Indices.

Variable call : PyObj → list PyObj → list (string * PyObj) → World → World * Outcome.
Variable call_event : PyObj → SmallEvent → World → World * Outcome.

Lemma run_script_count cs a s :
  count (run_script call call_event cs a s) = count s.
Proof.
  revert s. induction cs as [|c cs IH]; intros s; simpl; [done|].
  assert (count (fst (CallWrapper_call call call_event c a s)) = count s) as H1.
  { unfold CallWrapper_call.
    destruct (_substitute (cmd_widget c) [a] (datastream s)) as [q [ev|e|e]];
      [|done|done].
    by destruct (call_bound_frame call call_event (cmd_func c) ev (set_datastream q s))
      as (_ & -> & _). }
  destruct (CallWrapper_call call call_event c a s) as [s1 out]. simpl in H1.
  rewrite <-H1.
  destruct out as [v|e|e]; try by apply IH.
  destruct v; try by apply IH.
  repeat (case_match; try by apply IH). done.
Qed.

Lemma exec_count a s s' :
  exec call call_event a s = Some s' → count s ≤ count s'.
Proof.
  destruct a; simpl; unfold awake.
  - case_bool_decide; [|done]. intros [= <-]. simpl. lia.
  - case_bool_decide; [|done]. by intros [= <-].
  - case_bool_decide; [|done]. by intros [= <-].
  - case_bool_decide; [|done]. intros [= <-].
    destruct (method_cases call fw args kwargs t s) as [-> | ->]; [|simpl; lia].
    unfold Generator_call. destruct (fw_generator fw); [simpl; lia|].
    unfold FuncGenerator_call.
    destruct (return_cell_frame t s) as (_ & Hc & _).
    destruct (return_cell t s) as [s1 [l|]]; simpl in *; [lia|].
    pose proof (core_eq_run_in call (mkPartial (fw_func fw) args kwargs) s1)
      as (_ & E & _).
    destruct (run_in call _ s1) as [s2 out]. simpl in *. lia.
  - destruct (waiting s !! t) as [[l f]|]; [|done].
    destruct (FuncGenerator_resume t l s) as [[s1 out]|] eqn:Hres; [|done].
    intros [= <-].
    by apply FuncGenerator_resume_Some in Hres as (c & _ & _ & _ & ->).
  - unfold dispatch. destruct (tk_events s) as [|e es]; [done|].
    intros [= <-]. by rewrite run_script_count.
  - case_bool_decide; [|done]. by intros [= <-].
Qed.

(** Whatever the threads do from a reachable state, the counter never
    goes down, the indices of the deque stay strictly increasing and
    below the counter: an index drawn once is never drawn again, and no
    two pending entries share one. *)
Theorem indices_never_reused (acts : list Action) (s s' : State) :
  reachable call call_event s →
  execs call call_event acts s = Some s' →
  count s ≤ count s' ∧
  StronglySorted Z.lt (map fst (datastream s')) ∧
  Forall (λ x, x.1 < count s') (datastream s').
Proof.
  intros Hr Hex.
  pose proof (Inv_execs call call_event acts s s' (reachable_Inv _ _ _ Hr) Hex) as HI.
  split; [|split; apply HI].
  clear Hr HI. revert s Hex. induction acts as [|a acts IH]; intros s; simpl.
  - intros [= <-]. lia.
  - destruct (exec call call_event a s) as [s1|] eqn:H1; [|done].
    intros H2. apply exec_count in H1. apply IH in H2. lia.
Qed.

Lemma run_script_single c a s :
  run_script call call_event [c] a s = fst (CallWrapper_call call call_event c a s).
Proof.
  simpl. destruct (CallWrapper_call call call_event c a s) as [s1 out].
  destruct out as [v|e|e]; try done. destruct v; try done.
  repeat (case_match; try done).
Qed.

Lemma no_script (tags : list Widget) (sequence : string)
    (m : gmap (Widget * string) (list Command)) :
  (∀ tag, tag ∈ tags → m !! (tag, sequence) = None) →
  concat (map (λ tag, default [] (m !! (tag, sequence))) tags) = [].
Proof.
  induction tags as [|tag tags IH]; intros H; [done|].
  simpl. rewrite (H tag) by left. simpl. apply IH.
  intros tag' Hin. apply H. by right.
Qed.

(** An event generated for a sequence that has no binding on the tags Tk
    tries is dropped by the main loop, and its entry stays at the head of
    the deque; the next event that has a binding discards that entry and
    its function receives its own data. *)
Theorem unbound_event_is_skipped (s : State) (t1 t2 : thread)
    (w1 : Widget) (seq1 : string) (o1 : PyObj) (w2 : Widget) (seq2 : string)
    (o2 : PyObj) (tags : list Widget) (tag2 : Widget) (c : Command) :
  reachable call call_event s →
  tk_events s = [] → waiting s !! t1 = None → waiting s !! t2 = None →
  (∀ tag, tag ∈ tags → tk_bindings s !! (tag, seq1) = None) →
  tk_bindings s !! (tag2, seq2) = Some [c] →
  let s2 := event_generate w2 seq2 (UserData o2)
              (event_generate w1 seq1 (UserData o1) s) in
  execs call call_event [AEventGenerate t1 w1 seq1 o1; AEventGenerate t2 w2 seq2 o2]
    s = Some s2 ∧
  dispatch call call_event tags s2 = Some (set_tk_events (drop 1 (tk_events s2)) s2) ∧
  datastream s2 = datastream s ++ [(count s, UserData o1); (count s + 1, UserData o2)] ∧
  execs call call_event
    [AEventGenerate t1 w1 seq1 o1; AEventGenerate t2 w2 seq2 o2;
     ADispatch tags; ADispatch [tag2]] s
  = Some (fst (call_bound call call_event (cmd_func c)
                 (mkSmallEvent (UserData o2) (cmd_widget c))
                 (set_datastream [] (set_tk_events [] s2)))).
Proof.
  intros Hr Htk Hw1 Hw2 Hnone Hbind. apply reachable_Inv in Hr.
  assert (StronglySorted Z.lt
            (map fst (datastream (event_generate w2 seq2 (UserData o2)
                                    (event_generate w1 seq1 (UserData o1) s)))))
    as Hs.
  { destruct (sorted_event_generate w1 seq1 (UserData o1) s) as [H1 H2];
      [apply Hr|apply Hr|].
    by destruct (sorted_event_generate w2 seq2 (UserData o2) _ H1 H2). }
  simpl. unfold awake. rewrite !bool_decide_true by done. simpl.
  unfold dispatch. simpl. rewrite Htk. simpl.
  rewrite (no_script tags seq1 (tk_bindings s) Hnone). simpl.
  rewrite <-!app_assoc. simpl.
  split; [done|]. split; [done|]. split; [done|].
  rewrite Hbind. simpl app.
  rewrite run_script_single.
  erewrite (CallWrapper_call_found call call_event c (count s + 1) (UserData o2)
              (datastream s ++ [(count s, UserData o1)]) []).
  - reflexivity.
  - exact Hs.
  - reflexivity.
Qed.

End Indices.

(** ** The theorems above on the examples *)

Lemma recorder_started_reachable :
  reachable Recorder.call Recorder.call_event Recorder.started.
Proof.
  exists main_thread, Recorder.objects, [AProxyBuilder main_thread Recorder.root].
  vm_compute. reflexivity.
Qed.

Lemma recorder_bound_reachable :
  reachable Recorder.call Recorder.call_event Recorder.bound.
Proof.
  exists main_thread, Recorder.objects,
    [AProxyBuilder main_thread Recorder.root;
     ABind main_thread Recorder.root "<<test>>" Recorder.on_test false].
  vm_compute. reflexivity.
Qed.

Lemma recorder_calling_stop_reachable :
  reachable Recorder.call Recorder.call_event Recorder.calling_stop.
Proof.
  exists main_thread, Recorder.objects,
    [AProxyBuilder main_thread Recorder.root;
     ACall Recorder.worker Recorder.stop_fw [] []].
  vm_compute. reflexivity.
Qed.

(** Two events, with data 1 and 2: the handler pushes 1 and then 2. *)
Lemma events_delivered_in_order_witness :
  let c := mkCommand Recorder.root (UserFunc Recorder.on_test) in
  let calls := [(Recorder.root, "<<test>>"%string, UserData (PyInt 1));
                (".b"%string, "<<test>>"%string, UserData (PyInt 2))] in
  let s1 := generate_all calls Recorder.started in
  let args := map ev_data (drop (length (tk_events Recorder.started)) (tk_events s1)) in
  let s2 := deliver Recorder.call Recorder.call_event c args s1 in
  reachable Recorder.call Recorder.call_event Recorder.started ∧
  cmd_func c = UserFunc Recorder.on_test ∧ calls ≠ [] ∧
  Recorder.digits (world s2) = 12 ∧ datastream s2 = [].
Proof.
  intros c calls s1 args s2.
  assert (calls ≠ []) as Hne by discriminate.
  pose proof (events_delivered_in_order Recorder.call Recorder.call_event c
                Recorder.on_test calls Recorder.started recorder_started_reachable
                eq_refl Hne) as H.
  cbv zeta in H. destruct H as (Hw & Hd & _).
  split; [apply recorder_started_reachable|]. split; [reflexivity|].
  split; [exact Hne|]. split; [|exact Hd].
  unfold s2, args, s1. rewrite Hw. vm_compute. reflexivity.
Defined.

(** [push(1)] scheduled by the worker and [push(2)] by the main thread. *)
Lemma mute_calls_run_in_order_witness :
  let xs := [(Recorder.worker, Recorder.push_fw, [PyInt 1], []);
             (main_thread, Recorder.push_fw, [PyInt 2], [])] in
  let s1 := call_all Recorder.call xs Recorder.started in
  let args := map ev_data (drop (length (tk_events Recorder.started)) (tk_events s1)) in
  let s2 := deliver Recorder.call Recorder.call_event
              (mkCommand Recorder.root HandleCall) args s1 in
  reachable Recorder.call Recorder.call_event Recorder.started ∧
  Forall (λ x, fw_generator x.1.1.2 = ProcGenerator ProcHandler ∧
               ("func" ∉ (x.2).*1) ∧
               callable (world Recorder.started) (fw_func x.1.1.2) = true) xs ∧
  xs ≠ [] ∧
  Recorder.digits (world s1) = 0 ∧ Recorder.digits (world s2) = 12.
Proof.
  intros xs s1 args s2.
  assert (Forall (λ x, fw_generator x.1.1.2 = ProcGenerator ProcHandler ∧
                       ("func" ∉ (x.2).*1) ∧
                       callable (world Recorder.started) (fw_func x.1.1.2) = true) xs)
    as Hall.
  { unfold xs.
    repeat (apply Forall_cons; split;
            [split; [reflexivity|split; [simpl; apply not_elem_of_nil
                                        |vm_compute; reflexivity]]|]).
    constructor. }
  assert (xs ≠ []) as Hne by discriminate.
  pose proof (mute_calls_run_in_order Recorder.call Recorder.call_event Recorder.root
                xs Recorder.started recorder_started_reachable Hall Hne) as H.
  cbv zeta in H. destruct H as (Hw1 & Hw2 & _).
  split; [apply recorder_started_reachable|]. split; [exact Hall|].
  split; [exact Hne|]. split.
  - unfold s1. rewrite Hw1. vm_compute. reflexivity.
  - unfold s2, args, s1. rewrite Hw2. vm_compute. reflexivity.
Defined.

(** The worker thread evaluates [foo_proxy.square(13)]. *)
Lemma proxy_call_completes_witness :
  let func := mkPartial Demo.Foo_square [PyInt 13] [] in
  reachable Demo.call Demo.call_event Demo.started ∧
  tk_events Demo.started = [] ∧
  tk_bindings Demo.started !! (_widget Demo.pb, virtual_event)
    = Some [mkCommand (_widget Demo.pb) HandleCall] ∧
  Demo.worker ≠ main_thread ∧ waiting Demo.started !! Demo.worker = None ∧
  proxy_attr (proxy Demo.pb Demo.foo) "square" (world Demo.started)
    = Some (Returns Demo.square_fw) ∧
  callable (world Demo.started) (fw_func Demo.square_fw) = true ∧
  ∃ l s',
    execs Demo.call Demo.call_event
      [ACall Demo.worker Demo.square_fw [PyInt 13] [];
       ADispatch [_widget Demo.pb]; AWake Demo.worker] Demo.started = Some s' ∧
    history s' = history Demo.started ++
      [Called Demo.worker l func;
       Executed l func (world Demo.started) (Returns (PyInt 169));
       Returned Demo.worker l (Returns (PyInt 169))] ∧
    datastream s' = [] ∧ tk_events s' = [].
Proof.
  intros func.
  assert (tk_events Demo.started = []) as Htk by (vm_compute; reflexivity).
  assert (tk_bindings Demo.started !! (_widget Demo.pb, virtual_event)
          = Some [mkCommand (_widget Demo.pb) HandleCall]) as Hb
    by (vm_compute; reflexivity).
  assert (Demo.worker ≠ main_thread) as Ht by discriminate.
  assert (waiting Demo.started !! Demo.worker = None) as Hw
    by (vm_compute; reflexivity).
  assert (proxy_attr (proxy Demo.pb Demo.foo) "square" (world Demo.started)
          = Some (Returns Demo.square_fw)) as Hg by (vm_compute; reflexivity).
  assert ("func" ∉ (@nil (string * PyObj)).*1) as Hk by (simpl; apply not_elem_of_nil).
  assert (callable (world Demo.started) (fw_func Demo.square_fw) = true) as Hc
    by (vm_compute; reflexivity).
  assert (∀ e, snd (run Demo.call (mkPartial (fw_func Demo.square_fw) [PyInt 13] [])
                      (world Demo.started)) ≠ RaisesBase e) as Ho
    by (intros e; discriminate).
  destruct (proxy_call_completes Demo.call Demo.call_event Demo.pb Demo.foo "square"
              Demo.square_fw [PyInt 13] [] Demo.worker Demo.started
              started_reachable Htk Hb Ht Hw Hg Hk Hc Ho)
    as (l & s' & Hex & _ & Hh & _ & Hd & Hq & _).
  split; [apply started_reachable|].
  split; [exact Htk|]. split; [exact Hb|]. split; [exact Ht|]. split; [exact Hw|].
  split; [exact Hg|]. split; [exact Hc|].
  exists l, s'. split; [exact Hex|]. split; [exact Hh|]. split; [exact Hd|exact Hq].
Defined.

(** The worker thread called [pb.proxy(tape).stop()], which raises
    [KeyboardInterrupt] on the main thread. *)
Lemma base_exception_blocks_caller_witness :
  let f := mkPartial Recorder.Tape_stop [] [] in
  let r := CallWrapper_call Recorder.call Recorder.call_event
             (mkCommand Recorder.root HandleCall) (str 0) Recorder.calling_stop in
  reachable Recorder.call Recorder.call_event Recorder.calling_stop ∧
  waiting Recorder.calling_stop !! Recorder.worker = Some (1%positive, f) ∧
  datastream Recorder.calling_stop
    = [] ++ (0, FuncEventData FuncHandler 1%positive f) :: [] ∧
  snd (run Recorder.call f (world Recorder.calling_stop))
    = RaisesBase Recorder.keyboard_interrupt ∧
  snd r = RaisesBase Recorder.keyboard_interrupt ∧
  exec Recorder.call Recorder.call_event (AWake Recorder.worker) (fst r) = None.
Proof.
  intros f r.
  assert (waiting Recorder.calling_stop !! Recorder.worker = Some (1%positive, f))
    as Hw by (vm_compute; reflexivity).
  assert (datastream Recorder.calling_stop
          = [] ++ (0, FuncEventData FuncHandler 1%positive f) :: []) as Hq
    by (vm_compute; reflexivity).
  assert (snd (run Recorder.call f (world Recorder.calling_stop))
          = RaisesBase Recorder.keyboard_interrupt) as Hrun
    by (vm_compute; reflexivity).
  pose proof (base_exception_blocks_caller Recorder.call Recorder.call_event
                Recorder.calling_stop Recorder.worker 1%positive f 0 [] []
                Recorder.root Recorder.keyboard_interrupt
                recorder_calling_stop_reachable Hw Hq Hrun) as H.
  cbv zeta in H. destruct H as (H1 & _ & H2).
  split; [apply recorder_calling_stop_reachable|].
  split; [exact Hw|]. split; [exact Hq|]. split; [exact Hrun|]. split; [exact H1|].
  exact (proj2 (H2 [] _ eq_refl)).
Defined.

(** The worker thread sleeps on the call of index 0 and Tk delivers the
    index 1. *)
Lemma skipped_call_never_returns_witness :
  let f := mkPartial Demo.Foo_square [PyInt 13] [] in
  let c := mkCommand Demo.root HandleCall in
  let s1 := fst (CallWrapper_call Demo.call Demo.call_event c (str 1)
                   Demo.calling_square) in
  reachable Demo.call Demo.call_event Demo.calling_square ∧
  waiting Demo.calling_square !! Demo.worker = Some (1%positive, f) ∧
  (0, FuncEventData FuncHandler 1%positive f) ∈ datastream Demo.calling_square ∧
  0 < 1 ∧
  waiting s1 !! Demo.worker = Some (1%positive, f) ∧
  exec Demo.call Demo.call_event (AWake Demo.worker) s1 = None.
Proof.
  intros f c s1.
  assert (waiting Demo.calling_square !! Demo.worker = Some (1%positive, f)) as Hw
    by (vm_compute; reflexivity).
  assert ((0, FuncEventData FuncHandler 1%positive f)
          ∈ datastream Demo.calling_square) as Hin.
  { vm_compute. left. }
  assert (0 < 1) as Hlt by lia.
  split; [apply calling_square_reachable|].
  split; [exact Hw|]. split; [exact Hin|]. split; [exact Hlt|].
  exact (skipped_call_never_returns Demo.call Demo.call_event Demo.calling_square
           Demo.worker 1%positive f FuncHandler 0 1 c calling_square_reachable
           Hw Hin Hlt [] s1 eq_refl).
Defined.

(** [pb.mute_proxy(tape, on_error).fail()]: the handler stores the
    [ValueError] raised by [fail]. *)
Lemma exception_handler_invoked_witness :
  let p := make_proxy (ProcGenerator (ProcExcHandler Recorder.on_error))
             Recorder.root Recorder.tape in
  let fw := mkForwarder (ProcGenerator (ProcExcHandler Recorder.on_error))
              Recorder.root Recorder.Tape_fail in
  let s1 := fst (method Recorder.call fw [] [] Recorder.worker Recorder.started) in
  let r := CallWrapper_call Recorder.call Recorder.call_event
             (mkCommand Recorder.root HandleCall) (str (count Recorder.started)) s1 in
  reachable Recorder.call Recorder.call_event Recorder.started ∧
  snd (truth Recorder.truth_of Recorder.on_error (world Recorder.started))
    = Returns true ∧
  snd (mute_proxy Recorder.truth_of Recorder.pb Recorder.tape Recorder.on_error
         Recorder.started) = Returns p ∧
  Proxy_getattr p "fail" Recorder.objects = Returns fw ∧
  callable (world Recorder.started) (fw_func fw) = true ∧
  world (fst r) !! (40%positive, "error"%string) = Some Recorder.value_error ∧
  snd r = Returns PyNone ∧ cells (fst r) = cells Recorder.started.
Proof.
  intros p fw s1 r.
  assert (snd (truth Recorder.truth_of Recorder.on_error (world Recorder.started))
          = Returns true) as Ht by reflexivity.
  assert (snd (mute_proxy Recorder.truth_of Recorder.pb Recorder.tape
                 Recorder.on_error Recorder.started) = Returns p) as Hp
    by reflexivity.
  assert (Proxy_getattr p "fail" Recorder.objects = Returns fw) as Hg
    by (vm_compute; reflexivity).
  assert ("func" ∉ (@nil (string * PyObj)).*1) as Hk by (simpl; apply not_elem_of_nil).
  assert (callable (world Recorder.started) (fw_func fw) = true) as Hc0
    by (vm_compute; reflexivity).
  pose proof (proj2 (exception_handler_invoked Recorder.call Recorder.call_event
                       Recorder.truth_of Recorder.pb Recorder.tape Recorder.on_error
                       Recorder.started)
                p "fail" Recorder.objects fw [] [] Recorder.worker Recorder.root
                Recorder.started recorder_started_reachable Ht Hp Hg Hk Hc0) as H.
  cbv zeta in H. destruct H as (_ & _ & Hc & _ & _ & Hm).
  assert (world (fst r)
          = fst (Recorder.call Recorder.on_error [Recorder.value_error] []
                   (world Recorder.started)) ∧
          snd r = Returns PyNone) as [Hw Hout] by exact Hm.
  split; [apply recorder_started_reachable|]. split; [exact Ht|].
  split; [exact Hp|]. split; [exact Hg|]. split; [exact Hc0|].
  split; [|split; [exact Hout|exact Hc]].
  rewrite Hw. vm_compute. reflexivity.
Defined.

Lemma indices_never_reused_witness :
  reachable Demo.call Demo.call_event Demo.started ∧
  execs Demo.call Demo.call_event [ACall Demo.worker Demo.square_fw [PyInt 13] []]
    Demo.started = Some Demo.calling_square ∧
  count Demo.started ≤ count Demo.calling_square ∧
  Forall (λ x, x.1 < count Demo.calling_square) (datastream Demo.calling_square).
Proof.
  assert (execs Demo.call Demo.call_event
            [ACall Demo.worker Demo.square_fw [PyInt 13] []] Demo.started
          = Some Demo.calling_square) as Hex by (vm_compute; reflexivity).
  destruct (indices_never_reused Demo.call Demo.call_event _ _ _
              started_reachable Hex) as (H1 & _ & H2).
  split; [apply started_reachable|]. split; [exact Hex|]. split; [exact H1|exact H2].
Defined.

(** An event for [<<other>>], which nobody bound, then one for
    [<<test>>]: the handler of [<<test>>] pushes 2 only. *)
Lemma unbound_event_is_skipped_witness :
  let acts := [AEventGenerate Recorder.worker Recorder.root "<<other>>" (PyInt 1);
               AEventGenerate Recorder.worker Recorder.root "<<test>>" (PyInt 2);
               ADispatch [Recorder.root]; ADispatch [Recorder.root]] in
  reachable Recorder.call Recorder.call_event Recorder.bound ∧
  tk_events Recorder.bound = [] ∧
  waiting Recorder.bound !! Recorder.worker = None ∧
  (∀ tag, tag ∈ [Recorder.root] →
          tk_bindings Recorder.bound !! (tag, "<<other>>"%string) = None) ∧
  tk_bindings Recorder.bound !! (Recorder.root, "<<test>>"%string)
    = Some [mkCommand Recorder.root (UserFunc Recorder.on_test)] ∧
  ∃ s', execs Recorder.call Recorder.call_event acts Recorder.bound = Some s' ∧
        Recorder.digits (world s') = 2 ∧ datastream s' = [].
Proof.
  intros acts.
  assert (tk_events Recorder.bound = []) as Htk by (vm_compute; reflexivity).
  assert (waiting Recorder.bound !! Recorder.worker = None) as Hw
    by (vm_compute; reflexivity).
  assert (∀ tag, tag ∈ [Recorder.root] →
                 tk_bindings Recorder.bound !! (tag, "<<other>>"%string) = None)
    as Hnone.
  { intros tag Hin. apply list_elem_of_singleton in Hin as ->.
    vm_compute. reflexivity. }
  assert (tk_bindings Recorder.bound !! (Recorder.root, "<<test>>"%string)
          = Some [mkCommand Recorder.root (UserFunc Recorder.on_test)]) as Hb
    by (vm_compute; reflexivity).
  pose proof (unbound_event_is_skipped Recorder.call Recorder.call_event
                Recorder.bound Recorder.worker Recorder.worker
                Recorder.root "<<other>>" (PyInt 1) Recorder.root "<<test>>" (PyInt 2)
                [Recorder.root] Recorder.root _
                recorder_bound_reachable Htk Hw Hw Hnone Hb) as H.
  cbv zeta in H. destruct H as (_ & _ & _ & Hex).
  split; [apply recorder_bound_reachable|].
  split; [exact Htk|]. split; [exact Hw|]. split; [exact Hnone|]. split; [exact Hb|].
  eexists. split; [exact Hex|]. split; vm_compute; reflexivity.
Defined.
